(** * rever-nodejs-logger: a shallow embedding of the Logger facade

    [src/index.js] holds three versions of the [Logger] class, one after
    the other.  They share the context accessors and the level methods
    and differ in the transports they register and in how [doLog]
    assembles a record:

    - lines 1-248, module [V1]: the record nests the per-call extra under
      [metadata], errors are serialised, a null transport is used under
      [test];
    - lines 249-463, module [V2]: the extra is copied into the record,
      [logId] is mirrored into [trace_id], no process name is required;
    - lines 464-667, module [V3]: as [V2], but a process name is required
      and the file and HTTP transports are registered.

    A property is stated on every version that has the operation it
    speaks of, version 1 first; where the versions differ the statement
    says what each of them does.

    JavaScript objects are finite maps from property names to values,
    exceptions are carried in a sum type, the transports created by the
    constructor are threaded through as state, and the context namespace
    is one shared store of context objects addressed by reference. *)

From stdpp Require Import base strings gmap list pretty.

Set Warnings "-register-all".

(** ** Values *)

Inductive value : Type :=
  | VUndefined
  | VNull
  | VBool (b : bool)
  | VNum (n : Z)
  | VStr (s : string)
  | VObj (props : gmap string value)
  | VError (id : nat) (name message stack : string) (cause : option value).

Abbreviation obj := (gmap string value).

(** JavaScript truthiness: [undefined], [null], [false], [0] and the
    empty string are falsy; every object is truthy. *)
Definition truthy (v : value) : bool :=
  match v with
  | VUndefined | VNull => false
  | VBool b => b
  | VNum n => negb (n =? 0)%Z
  | VStr s => negb (String.eqb s "")
  | VObj _ | VError _ _ _ _ _ => true
  end.

(** [a || b] *)
Definition js_or (a b : value) : value := if truthy a then a else b.

(** [a ?? b] *)
Definition js_nullish (a b : value) : value :=
  match a with
  | VUndefined | VNull => b
  | _ => a
  end.

(** [v === 'literal'] *)
Definition is_str (v : value) (s : string) : bool :=
  match v with
  | VStr t => String.eqb t s
  | _ => false
  end.

(** Property read [v.k]; a missing property reads as [undefined].  The
    optional chaining [v?.k] and the guard [v && v.k] of the source read
    the same way on [undefined] and [null]. *)
Definition prop (v : value) (k : string) : value :=
  match v with
  | VObj o => default VUndefined (o !! k)
  | VError _ name message stack cause =>
      if String.eqb k "name" then VStr name
      else if String.eqb k "message" then VStr message
      else if String.eqb k "stack" then VStr stack
      else if String.eqb k "cause" then default VUndefined cause
      else VUndefined
  | _ => VUndefined
  end.

(** Property read on an object literal. *)
Definition field (o : obj) (k : string) : value := default VUndefined (o !! k).

(** Conversion performed by a template literal. *)
Definition to_string (v : value) : string :=
  match v with
  | VUndefined => "undefined"
  | VNull => "null"
  | VBool true => "true"
  | VBool false => "false"
  | VNum n => pretty n
  | VStr s => s
  | VObj _ => "[object Object]"
  | VError _ name message _ _ =>
      if String.eqb name "" then message
      else if String.eqb message "" then name
      else name +:+ ": " +:+ message
  end.

(** Own enumerable properties, as [Object.assign] copies them.  An
    [Error] keeps [message] and [stack] non-enumerable; a string
    contributes its indexed characters. *)
Fixpoint chars (i : nat) (s : string) : list (string * value) :=
  match s with
  | EmptyString => []
  | String c s' => (pretty i, VStr (String c EmptyString)) :: chars (S i) s'
  end.

Definition own_props (v : value) : obj :=
  match v with
  | VObj o => o
  | VStr s => list_to_map (chars 0 s)
  | _ => ∅
  end.

(** [Object.assign(target, source)]: properties of the source win. *)
Definition Object_assign (target : obj) (source : value) : obj :=
  own_props source ∪ target.

(** [new Error(message)]; only the header line of the stack is kept,
    the frames below it depend on the call site. *)
Definition new_Error (message : string) : value :=
  VError 0 "Error" message ("Error: " +:+ message) None.

(** ** Exceptions *)

Definition try_catch {A : Type} (body : value + A) (handler : value → value + A)
  : value + A :=
  match body with
  | inl err => handler err
  | inr a => inr a
  end.

(** ** Severity levels *)

Inductive Level : Type := LInfo | LError | LWarn | LDebug.

Definition level_name (l : Level) : string :=
  match l with
  | LInfo => "info"
  | LError => "error"
  | LWarn => "warn"
  | LDebug => "debug"
  end.

#[global] Instance Level_eq_dec : EqDecision Level.
Proof. solve_decision. Defined.

(** ** Transports and the backend logger *)

Inductive Format : Type :=
  | FORMAT_JSON
  | FORMAT_SIMPLE
  | DevFormat.

Inductive Transport : Type :=
  | Console (fmt : option Format)
  | File (filename : value)
  | Http (host path : string) (ssl : bool)
  | Stream (target : string).

Definition is_console (t : Transport) : bool :=
  match t with Console _ => true | _ => false end.

Definition is_file (t : Transport) : bool :=
  match t with File _ => true | _ => false end.

Definition is_remote (t : Transport) : bool :=
  match t with Http _ _ _ => true | _ => false end.

Definition is_null (t : Transport) : bool :=
  match t with Stream target => String.eqb target "/dev/null" | _ => false end.

(** The argument of [createLogger]. *)
Record WinstonLogger : Type := {
  w_level : value;
  exitOnError : bool;
  w_format : Format;
  defaultMeta : obj;
  transports : list Transport
}.

Record Logger : Type := {
  logger : WinstonLogger;
  processName : value;
  classProcessName : value
}.

(** A call [this.logger[level](message, meta)]: the record the facade
    hands to the backend, and the backend logger it is handed to. *)
Record Emission : Type := {
  em_logger : WinstonLogger;
  em_level : Level;
  em_message : value;
  em_meta : option obj
}.

(** [_.compact] drops the falsy entries. *)
Definition compact (l : list (option Transport)) : list Transport := omap id l.

(** ** Construction: the transports created so far are the state *)

Definition Ctor (A : Type) : Type :=
  list Transport → list Transport * (value + A).

#[global] Instance Ctor_ret : MRet Ctor := λ A a created, (created, inr a).

#[global] Instance Ctor_bind : MBind Ctor := λ A B f m created,
  match m created with
  | (created', inl err) => (created', inl err)
  | (created', inr a) => f a created'
  end.

Definition throw {A : Type} (err : value) : Ctor A := λ created, (created, inl err).

(** [new transports.X(...)] *)
Definition new_transport (t : Transport) : Ctor Transport :=
  λ created, (created ++ [t], inr t).

(** ** The context namespace, [httpContext.ns] *)

(** Modelled from the spec: the flow-local store behind [httpContext]
    is an external module.  Section 4.1 gives its contract: a context is
    a store of correlation values, [set] writes into the context active
    for the running flow and [get] reads from it, answering the absent
    sentinel when there is none.  The namespace is one object shared by
    every caller; [ns_active] is its [active] field, a reference into the
    store of context objects. *)
Record Namespace : Type := {
  ns_active : option nat;
  ns_context : option nat;
  ns_heap : gmap nat obj
}.

Definition deref (ns : Namespace) (c : nat) : obj := default ∅ (ns_heap ns !! c).

(** Modelled from the spec: [ns.createContext()] of the external store,
    a fresh context holding no value. *)
Definition ns_createContext (ns : Namespace) : nat * Namespace :=
  let c := fresh (dom (ns_heap ns)) in
  (c, {| ns_active := ns_active ns;
         ns_context := ns_context ns;
         ns_heap := <[c := ∅]> (ns_heap ns) |}).

(** Modelled from the spec: [httpContext.set(key, value)] of the
    external store. *)
Definition httpContext_set (k : string) (v : value) (ns : Namespace) : Namespace :=
  match ns_active ns with
  | Some c =>
      {| ns_active := ns_active ns;
         ns_context := ns_context ns;
         ns_heap := <[c := <[k := v]> (deref ns c)]> (ns_heap ns) |}
  | None => ns
  end.

(** Modelled from the spec: [httpContext.get(key)] of the external
    store. *)
Definition httpContext_get (k : string) (ns : Namespace) : value :=
  match ns_active ns with
  | Some c => field (deref ns c) k
  | None => VUndefined
  end.

(** ** Context accessors of the facade (the same in all three versions) *)

Definition createContext (ns : Namespace) : Namespace :=
  match ns_active ns with
  | None =>
      let '(context, ns') := ns_createContext ns in
      {| ns_active := Some context;
         ns_context := Some context;
         ns_heap := ns_heap ns' |}
  | Some _ => ns
  end.

Definition setLogId (logId : value) (ns : Namespace) : Namespace :=
  httpContext_set "logId" logId (createContext ns).

Definition getLogId (ns : Namespace) : value := httpContext_get "logId" ns.

Definition setUserId (userId : value) (ns : Namespace) : Namespace :=
  httpContext_set "userId" userId (createContext ns).

Definition getUserId (ns : Namespace) : value := httpContext_get "userId" ns.

Definition setProcess (processName : value) (this : Logger) : Logger :=
  {| logger := logger this;
     processName := processName;
     classProcessName := classProcessName this |}.

(** [path.basename] belongs to the runtime; it is a parameter of the
    model. *)
Definition setFilename (basename : string → string) (filename : string)
    (this : Logger) : Logger :=
  {| logger := logger this;
     processName := VStr (basename filename);
     classProcessName := classProcessName this |}.

(** [s.charAt(0)] and [s.slice(1)] *)
Definition charAt0 (s : string) : string :=
  match s with
  | EmptyString => ""
  | String c _ => String c ""
  end.

Definition slice1 (s : string) : string :=
  match s with
  | EmptyString => ""
  | String _ rest => rest
  end.

(** [methodName.charAt(0).toUpperCase() + methodName.slice(1)], the
    runtime's [toUpperCase] being a parameter of the model. *)
Definition capitalize (toUpperCase : string → string) (methodName : string)
  : string :=
  toUpperCase (charAt0 methodName) +:+ slice1 methodName.

(** The check shared by the three constructors. *)
Definition validateMetadata (metadata : obj) : Ctor unit :=
  if negb (truthy (field metadata "service"))
     || negb (truthy (field metadata "environment"))
  then throw (new_Error
    "No service or environment configured when initializing the logger class.")
  else mret tt.

(** A default parameter [opts = {}]. *)
Definition default_opts (opts : value) : value :=
  match opts with
  | VUndefined => VObj ∅
  | _ => opts
  end.

(** Modelled from the spec: [serializeError] comes from an external
    package.  Section 4.4: an error-shaped value becomes a plain
    structure exposing [message], [name] and [stack], the [cause] chain
    being unwrapped recursively; any other payload is plain data
    already. *)
Fixpoint serializeError (v : value) : value :=
  match v with
  | VError _ name message stack cause =>
      let plain : obj :=
        <["name" := VStr name]>
          (<["message" := VStr message]> {[ "stack" := VStr stack ]}) in
      VObj match cause with
           | Some c => <["cause" := serializeError c]> plain
           | None => plain
           end
  | _ => v
  end.

(** ** Version 1 (lines 1-248) *)

Module V1.

Definition LOCAL_DEV_ENVIRONMENT : string := "DEV".

Definition buildMetadataConfig (metadata : obj) : obj :=
  Object_assign (Object_assign ∅ (VObj metadata))
    (VObj (<["service" := field metadata "service"]>
             {[ "environment" := field metadata "environment" ]})).

Definition getDevFormat : Format := DevFormat.

Definition _enableConsoleTransport (metadata : obj) : Ctor (option Transport) :=
  if is_str (field metadata "environment") "test" then mret None
  else t ← new_transport (Console None); mret (Some t).

Definition _enableFileTransport (options : value) : Ctor (option Transport) :=
  if truthy options && truthy (prop options "filename")
  then t ← new_transport (File (prop options "filename")); mret (Some t)
  else mret None.

Definition _enableDatadogTransport (options : value) (metadata : obj)
  : Ctor (option Transport) :=
  if is_str (field metadata "environment") "test" then mret None
  else if truthy options && truthy (prop options "datadog_api_key")
  then
    t ← new_transport
          (Http "http-intake.logs.datadoghq.com"
             ("/v1/input/" +:+ to_string (prop options "datadog_api_key")
                +:+ "?ddsource=nodejs&service="
                +:+ to_string (field metadata "service"))
             true);
    mret (Some t)
  else mret None.

Definition _enableDevNullTransport (metadata : obj) : Ctor (option Transport) :=
  if is_str (field metadata "environment") "test"
  then t ← new_transport (Stream "/dev/null"); mret (Some t)
  else mret None.

Definition initializeLogger (options : value) (metadata : obj)
    (customTransports : list Transport) : Ctor WinstonLogger :=
  let logFormat :=
    if is_str (field metadata "environment") "dev" then getDevFormat
    else FORMAT_JSON in
  console ← _enableConsoleTransport metadata;
  devNull ← _enableDevNullTransport metadata;
  mret {| w_level := js_nullish (prop options "level") (VStr "info");
          exitOnError := false;
          w_format := logFormat;
          defaultMeta := metadata;
          transports := compact ([console; devNull] ++ (Some <$> customTransports)) |}.

Definition constructor (metadata : obj) (options : value)
    (customTransports : list Transport) : Ctor Logger :=
  _ ← validateMetadata metadata;
  let _metadata := buildMetadataConfig metadata in
  lg ← initializeLogger options _metadata customTransports;
  mret {| logger := lg; processName := VUndefined; classProcessName := VUndefined |}.

Definition parseMetadata (this : Logger) (opts : value) (level : Level) : value :=
  let environment := field (defaultMeta (logger this)) "environment" in
  if negb (String.eqb (level_name level) "error")
     || is_str environment LOCAL_DEV_ENVIRONMENT
  then opts
  else serializeError opts.

Definition doLog (this : Logger) (ns : Namespace) (level : Level)
    (message opts : value) : value + Emission :=
  try_catch
    (let logId := js_or (getLogId ns) VNull in
     let userId := js_or (getUserId ns) VNull in
     if negb (truthy (processName this))
     then inl (new_Error "No process name set on logger")
     else
       let msg := "[" +:+ to_string (processName this) +:+ "]: "
                    +:+ to_string message in
       let metadata := parseMetadata this opts level in
       let _opts : obj := Object_assign ∅ (VObj {[ "metadata" := metadata ]}) in
       let _opts := if truthy logId then <["logId" := logId]> _opts else _opts in
       let _opts := if truthy userId then <["userId" := userId]> _opts else _opts in
       let _opts :=
         if truthy (processName this)
         then <["processName" := processName this]> _opts else _opts in
       inr {| em_logger := logger this; em_level := level;
              em_message := VStr msg; em_meta := Some _opts |})
    (λ err,
       inr {| em_logger := logger this; em_level := level;
              em_message := prop err "message"; em_meta := None |}).

Definition i (this : Logger) (ns : Namespace) (message opts : value) :=
  doLog this ns LInfo message (default_opts opts).

Definition l (this : Logger) (ns : Namespace) (message opts : value) :=
  i this ns message (default_opts opts).

Definition log (this : Logger) (ns : Namespace) (message opts : value) :=
  i this ns message (default_opts opts).

Definition info (this : Logger) (ns : Namespace) (message opts : value) :=
  i this ns message (default_opts opts).

Definition e (this : Logger) (ns : Namespace) (message opts : value) :=
  doLog this ns LError message (default_opts opts).

Definition error (this : Logger) (ns : Namespace) (message opts : value) :=
  e this ns message (default_opts opts).

Definition w (this : Logger) (ns : Namespace) (message opts : value) :=
  doLog this ns LWarn message (default_opts opts).

Definition warn (this : Logger) (ns : Namespace) (message opts : value) :=
  w this ns message (default_opts opts).

Definition warning (this : Logger) (ns : Namespace) (message opts : value) :=
  w this ns message (default_opts opts).

Definition d (this : Logger) (ns : Namespace) (message opts : value) :=
  doLog this ns LDebug message (default_opts opts).

Definition debug (this : Logger) (ns : Namespace) (message opts : value) :=
  d this ns message (default_opts opts).

(** The canonical method of each severity. *)
Definition facade (level : Level)
  : Logger → Namespace → value → value → value + Emission :=
  match level with
  | LInfo => info
  | LError => error
  | LWarn => warn
  | LDebug => debug
  end.

(** [toUpperCase] belongs to the runtime; it is a parameter of the
    model. *)
Definition setMethodProcess (toUpperCase : string → string) (methodName : string)
    (this : Logger) : Logger :=
  let this :=
    if negb (truthy (classProcessName this))
    then {| logger := logger this;
            processName := processName this;
            classProcessName := processName this |}
    else this in
  let methodNameCapitalized := capitalize toUpperCase methodName in
  setProcess
    (VStr (to_string (classProcessName this) +:+ "] [methods:"
             +:+ methodNameCapitalized))
    this.

End V1.

(** ** Version 2 (lines 249-463) *)

Module V2.

Definition buildMetadataConfig (metadata : obj) : obj :=
  Object_assign (Object_assign ∅ (VObj metadata))
    (VObj (<["service" := field metadata "service"]>
             {[ "environment" := field metadata "environment" ]})).

Definition _enableConsoleTransport (metadata : obj) : Ctor (option Transport) :=
  if is_str (field metadata "environment") "test" then mret None
  else t ← new_transport (Console None); mret (Some t).

Definition _enableFileTransport (options : value) : Ctor (option Transport) :=
  if truthy options && truthy (prop options "filename")
  then t ← new_transport (File (prop options "filename")); mret (Some t)
  else mret None.

Definition _enableDatadogTransport (options : value) (metadata : obj)
  : Ctor (option Transport) :=
  if is_str (field metadata "environment") "test" then mret None
  else if truthy options && truthy (prop options "datadog_api_key")
  then
    t ← new_transport
          (Http "http-intake.logs.datadoghq.com"
             ("/v1/input/" +:+ to_string (prop options "datadog_api_key")
                +:+ "?ddsource=nodejs&service="
                +:+ to_string (field metadata "service"))
             true);
    mret (Some t)
  else mret None.

Definition initializeLogger (options : value) (metadata : obj)
    (customTransports : list Transport) : Ctor WinstonLogger :=
  let logFormat :=
    if is_str (field metadata "environment") "dev" then FORMAT_SIMPLE
    else FORMAT_JSON in
  console ← _enableConsoleTransport metadata;
  mret {| w_level := VStr "info";
          exitOnError := false;
          w_format := logFormat;
          defaultMeta := metadata;
          transports := compact ([console] ++ (Some <$> customTransports)) |}.

Definition constructor (metadata : obj) (options : value)
    (customTransports : list Transport) : Ctor Logger :=
  _ ← validateMetadata metadata;
  let _metadata := buildMetadataConfig metadata in
  lg ← initializeLogger options _metadata customTransports;
  mret {| logger := lg; processName := VUndefined; classProcessName := VUndefined |}.

Definition doLog (this : Logger) (ns : Namespace) (level : Level)
    (message opts : value) : value + Emission :=
  try_catch
    (let logId := js_or (getLogId ns) VNull in
     let userId := js_or (getUserId ns) VNull in
     let msg := to_string message in
     let _opts : obj := Object_assign ∅ opts in
     let _opts :=
       if truthy logId
       then <["trace_id" := logId]> (<["logId" := logId]> _opts) else _opts in
     let _opts := if truthy userId then <["userId" := userId]> _opts else _opts in
     inr {| em_logger := logger this; em_level := level;
            em_message := VStr msg; em_meta := Some _opts |})
    (λ err,
       inr {| em_logger := logger this; em_level := level;
              em_message := err; em_meta := None |}).

Definition i (this : Logger) (ns : Namespace) (message opts : value) :=
  doLog this ns LInfo message opts.

Definition l (this : Logger) (ns : Namespace) (message opts : value) :=
  i this ns message opts.

Definition log (this : Logger) (ns : Namespace) (message opts : value) :=
  i this ns message opts.

Definition info (this : Logger) (ns : Namespace) (message opts : value) :=
  i this ns message opts.

Definition e (this : Logger) (ns : Namespace) (message opts : value) :=
  doLog this ns LError message opts.

Definition error (this : Logger) (ns : Namespace) (message opts : value) :=
  e this ns message opts.

Definition w (this : Logger) (ns : Namespace) (message opts : value) :=
  doLog this ns LWarn message opts.

Definition warn (this : Logger) (ns : Namespace) (message opts : value) :=
  w this ns message opts.

Definition warning (this : Logger) (ns : Namespace) (message opts : value) :=
  w this ns message opts.

Definition d (this : Logger) (ns : Namespace) (message opts : value) :=
  doLog this ns LDebug message opts.

Definition debug (this : Logger) (ns : Namespace) (message opts : value) :=
  d this ns message opts.

Definition facade (level : Level)
  : Logger → Namespace → value → value → value + Emission :=
  match level with
  | LInfo => info
  | LError => error
  | LWarn => warn
  | LDebug => debug
  end.

(** [toUpperCase] belongs to the runtime; it is a parameter of the
    model. *)
Definition setMethodProcess (toUpperCase : string → string) (methodName : string)
    (this : Logger) : Logger :=
  let this :=
    if negb (truthy (classProcessName this))
    then {| logger := logger this;
            processName := processName this;
            classProcessName := processName this |}
    else this in
  let methodNameCapitalized := capitalize toUpperCase methodName in
  setProcess
    (VStr (to_string (classProcessName this) +:+ ") (methods:"
             +:+ methodNameCapitalized))
    this.

End V2.

(** ** Version 3 (lines 464-667) *)

Module V3.

Definition buildMetadataConfig (metadata : obj) : obj :=
  Object_assign (Object_assign ∅ (VObj metadata))
    (VObj {[ "service" :=
               VStr (to_string (field metadata "service") +:+ "-"
                       +:+ to_string (field metadata "environment")) ]}).

Definition _enableConsoleTransport (options : value) : Ctor (option Transport) :=
  t ← new_transport (Console (Some FORMAT_SIMPLE)); mret (Some t).

Definition _enableFileTransport (options : value) : Ctor (option Transport) :=
  if truthy options && truthy (prop options "filename")
  then t ← new_transport (File (prop options "filename")); mret (Some t)
  else mret None.

Definition _enableDatadogTransport (options : value) (_metadata : obj)
  : Ctor (option Transport) :=
  if truthy options && truthy (prop options "datadog_api_key")
  then
    t ← new_transport
          (Http "http-intake.logs.datadoghq.com"
             ("/v1/input/" +:+ to_string (prop options "datadog_api_key")
                +:+ "?ddsource=nodejs&service="
                +:+ to_string (field _metadata "service"))
             true);
    mret (Some t)
  else mret None.

Definition initializeLogger (options : value) (metadata : obj)
    (customTransports : list Transport) : Ctor WinstonLogger :=
  console ← _enableConsoleTransport options;
  datadog ← _enableDatadogTransport options metadata;
  file ← _enableFileTransport options;
  mret {| w_level := VStr "info";
          exitOnError := false;
          w_format := FORMAT_JSON;
          defaultMeta := metadata;
          transports :=
            compact ([console; datadog; file] ++ (Some <$> customTransports)) |}.

Definition constructor (metadata : obj) (options : value)
    (customTransports : list Transport) : Ctor Logger :=
  _ ← validateMetadata metadata;
  let _metadata := buildMetadataConfig metadata in
  lg ← initializeLogger options _metadata customTransports;
  mret {| logger := lg; processName := VUndefined; classProcessName := VUndefined |}.

Definition doLog (this : Logger) (ns : Namespace) (level : Level)
    (message opts : value) : value + Emission :=
  try_catch
    (let logId := js_or (getLogId ns) VNull in
     let userId := js_or (getUserId ns) VNull in
     if negb (truthy (processName this))
     then inl (new_Error "No process name set on logger")
     else
       let msg := "[" +:+ to_string (processName this) +:+ "]: "
                    +:+ to_string message in
       let _opts : obj := Object_assign ∅ opts in
       let _opts :=
         if truthy logId
         then <["trace_id" := logId]> (<["logId" := logId]> _opts) else _opts in
       let _opts := if truthy userId then <["userId" := userId]> _opts else _opts in
       let _opts :=
         if truthy (processName this)
         then <["processName" := processName this]> _opts else _opts in
       inr {| em_logger := logger this; em_level := level;
              em_message := VStr msg; em_meta := Some _opts |})
    (λ err,
       inr {| em_logger := logger this; em_level := level;
              em_message := err; em_meta := None |}).

Definition i (this : Logger) (ns : Namespace) (message opts : value) :=
  doLog this ns LInfo message opts.

Definition l (this : Logger) (ns : Namespace) (message opts : value) :=
  i this ns message opts.

Definition log (this : Logger) (ns : Namespace) (message opts : value) :=
  i this ns message opts.

Definition info (this : Logger) (ns : Namespace) (message opts : value) :=
  i this ns message opts.

Definition e (this : Logger) (ns : Namespace) (message opts : value) :=
  doLog this ns LError message opts.

Definition error (this : Logger) (ns : Namespace) (message opts : value) :=
  e this ns message opts.

Definition w (this : Logger) (ns : Namespace) (message opts : value) :=
  doLog this ns LWarn message opts.

Definition warn (this : Logger) (ns : Namespace) (message opts : value) :=
  w this ns message opts.

Definition warning (this : Logger) (ns : Namespace) (message opts : value) :=
  w this ns message opts.

Definition d (this : Logger) (ns : Namespace) (message opts : value) :=
  doLog this ns LDebug message opts.

Definition debug (this : Logger) (ns : Namespace) (message opts : value) :=
  d this ns message opts.

Definition facade (level : Level)
  : Logger → Namespace → value → value → value + Emission :=
  match level with
  | LInfo => info
  | LError => error
  | LWarn => warn
  | LDebug => debug
  end.

(** [toUpperCase] belongs to the runtime; it is a parameter of the
    model. *)
Definition setMethodProcess (toUpperCase : string → string) (methodName : string)
    (this : Logger) : Logger :=
  let this :=
    if negb (truthy (classProcessName this))
    then {| logger := logger this;
            processName := processName this;
            classProcessName := processName this |}
    else this in
  let methodNameCapitalized := capitalize toUpperCase methodName in
  setProcess
    (VStr (to_string (classProcessName this) +:+ ") (methods:"
             +:+ methodNameCapitalized))
    this.

End V3.

(** ** The record delivered to the sinks *)

(** A top-level field the facade put into the record it emits. *)
Definition em_field (e : Emission) (k : string) : option value :=
  em_meta e ≫= (.!! k).

(** Modelled from the spec: the backend is external.  Section 6 gives the
    shape of the record it delivers: the static metadata the logger was
    constructed with, merged with the fields of the call, the fields of
    the call being merged later. *)
Definition delivered (e : Emission) : obj :=
  match em_meta e with
  | Some meta =>
      Object_assign (Object_assign ∅ (VObj (defaultMeta (em_logger e)))) (VObj meta)
  | None => Object_assign ∅ (VObj (defaultMeta (em_logger e)))
  end.

(** ** Logical flows interleaved on one thread *)

(** What a flow does in one synchronous segment. *)
Inductive flow_op : Type :=
  | CallSetLogId (logId : value)
  | CallSetUserId (userId : value)
  | CallLog (level : Level) (message opts : value).

(** Modelled from the spec: section 6 has a middleware hook that
    establishes a context for each inbound unit of work.  [bound] is the
    context so established for the flow about to run, if any; the
    runtime makes it the active one while a segment of the flow runs and
    puts the previous one back afterwards.  A flow that did not pass
    through the hook runs with the namespace as it finds it. *)
Definition enter (bound : option nat) (ns : Namespace) : Namespace :=
  match bound with
  | Some c =>
      {| ns_active := Some c; ns_context := ns_context ns; ns_heap := ns_heap ns |}
  | None => ns
  end.

Definition leave (bound previous : option nat) (ns : Namespace) : Namespace :=
  match bound with
  | Some _ =>
      {| ns_active := previous; ns_context := ns_context ns; ns_heap := ns_heap ns |}
  | None => ns
  end.

(** One segment of a flow calling into version 1 of the facade. *)
Definition exec (this : Logger) (op : flow_op) (ns : Namespace)
  : Namespace * list Emission :=
  match op with
  | CallSetLogId logId => (setLogId logId ns, [])
  | CallSetUserId userId => (setUserId userId ns, [])
  | CallLog level message opts =>
      (ns, match V1.facade level this ns message opts with
           | inr e => [e]
           | inl _ => []
           end)
  end.

Definition run_step (bound : nat → option nat) (this : Logger)
    (st : Namespace * list (nat * Emission)) (seg : nat * flow_op)
  : Namespace * list (nat * Emission) :=
  let '(ns, out) := st in
  let '(f, op) := seg in
  let '(ns', es) := exec this op (enter (bound f) ns) in
  (leave (bound f) (ns_active ns) ns', out ++ (pair f <$> es)).

(** The segments of a schedule run one after the other on the one
    namespace; the result lists the records emitted, each with the flow
    that emitted it. *)
Definition run (bound : nat → option nat) (this : Logger)
    (schedule : list (nat * flow_op)) (ns : Namespace)
  : Namespace * list (nat * Emission) :=
  foldl (run_step bound this) (ns, []) schedule.

(** The [logId] shown by the records of flow [f], in order. *)
Definition shown_logId (f : nat) (out : list (nat * Emission)) : list (option value) :=
  (λ r, em_field r.2 "logId") <$> filter (λ r, r.1 = f) out.

(** Every way of interleaving the segments of two flows, the order
    within each flow being kept. *)
Inductive Interleave {A : Type} : list A → list A → list A → Prop :=
  | Interleave_nil : Interleave [] [] []
  | Interleave_left x l1 l2 l :
      Interleave l1 l2 l → Interleave (x :: l1) l2 (x :: l)
  | Interleave_right x l1 l2 l :
      Interleave l1 l2 l → Interleave l1 (x :: l2) (x :: l).

(** The namespace of a process in which nothing has run yet. *)
Definition ns_initial : Namespace :=
  {| ns_active := None; ns_context := None; ns_heap := ∅ |}.

(** A flow that never passed through the middleware hook. *)
Definition unbound (f : nat) : option nat := None.

(** The error thrown by [validateMetadata]. *)
Definition ConfigurationError : value :=
  new_Error "No service or environment configured when initializing the logger class.".

(** The error thrown by [doLog] when no process name is set. *)
Definition UsageError : value := new_Error "No process name set on logger".

(** The configuration of [src/tests/index.js], run with no
    [DATADOG_API_KEY] in the environment. *)
Definition tests_metadata : obj :=
  <["service" := VStr "service-test"]> {[ "environment" := VStr "dev" ]}.

Definition tests_options : value :=
  VObj (<["filename" := VStr "./mylog.log"]> {[ "datadog_api_key" := VUndefined ]}).

(** A production configuration with a key for the remote intake. *)
Definition prod_metadata : obj :=
  <["service" := VStr "billing"]> {[ "environment" := VStr "prod" ]}.

Definition prod_options : value := VObj {[ "datadog_api_key" := VStr "k3y" ]}.

(** The logger version 1 constructs from [prod_metadata] with no
    options; no process name is set on it yet. *)
Definition prod_logger : Logger :=
  {| logger :=
       {| w_level := VStr "info";
          exitOnError := false;
          w_format := FORMAT_JSON;
          defaultMeta := V1.buildMetadataConfig prod_metadata;
          transports := [Console None] |};
     processName := VUndefined;
     classProcessName := VUndefined |}.

(** The namespace after a first flow has set its correlation id. *)
Definition request_ns : Namespace := setLogId (VStr "req-1") ns_initial.

(** A logger of version 1 whose environment is the local-dev marker. *)
Definition local_dev_logger : Logger :=
  {| logger :=
       {| w_level := VStr "info";
          exitOnError := false;
          w_format := FORMAT_JSON;
          defaultMeta :=
            V1.buildMetadataConfig
              (<["service" := VStr "billing"]>
                 {[ "environment" := VStr V1.LOCAL_DEV_ENVIRONMENT ]});
          transports := [Console None] |};
     processName := VUndefined;
     classProcessName := VUndefined |}.

(** The segments of flow [f] in a schedule. *)
Definition own (f : nat) (schedule : list (nat * flow_op))
  : list (nat * flow_op) :=
  filter (λ s, s.1 = f) schedule.

(** What one segment of a flow bound to the context [c] does. *)
Definition bound_step (this : Logger) (f c : nat) (op : flow_op)
    (ns : Namespace) (out : list (nat * Emission))
  : Namespace * list (nat * Emission) :=
  match op with
  | CallSetLogId v =>
      ({| ns_active := ns_active ns; ns_context := ns_context ns;
          ns_heap := <[c := <["logId" := v]> (deref ns c)]> (ns_heap ns) |}, out)
  | CallSetUserId v =>
      ({| ns_active := ns_active ns; ns_context := ns_context ns;
          ns_heap := <[c := <["userId" := v]> (deref ns c)]> (ns_heap ns) |}, out)
  | CallLog level message opts =>
      ({| ns_active := ns_active ns; ns_context := ns_context ns;
          ns_heap := ns_heap ns |},
       out ++ match V1.facade level this (enter (Some c) ns) message opts with
              | inr e => [(f, e)]
              | inl _ => []
              end)
  end.

(** Two flows, each setting its correlation id before either logs. *)
Definition flow_A : list (nat * flow_op) :=
  [(0, CallSetLogId (VStr "a1")); (0, CallLog LInfo (VStr "from A") VUndefined)].

Definition flow_B : list (nat * flow_op) :=
  [(1, CallSetLogId (VStr "b1")); (1, CallLog LInfo (VStr "from B") VUndefined)].

Definition racing_schedule : list (nat * flow_op) :=
  [(0, CallSetLogId (VStr "a1")); (1, CallSetLogId (VStr "b1"));
   (0, CallLog LInfo (VStr "from A") VUndefined);
   (1, CallLog LInfo (VStr "from B") VUndefined)].

(** A logger of version 1 with a process name set. *)
Definition ready_logger : Logger := setProcess (VStr "index.js") prod_logger.

(** Every flow bound to a context of its own, as the middleware hook
    leaves them. *)
Definition each_its_own (f : nat) : option nat := Some f.

(** [toUpperCase] on the ASCII letters, to run the examples. *)
Fixpoint upper_ascii (s : string) : string :=
  match s with
  | EmptyString => ""
  | String c rest =>
      let n := Ascii.nat_of_ascii c in
      String (if (97 <=? n)%nat && (n <=? 122)%nat
              then Ascii.ascii_of_nat (n - 32) else c)
        (upper_ascii rest)
  end.

(** The last segment of a path written with [/], to run the examples. *)
Fixpoint last_segment (acc s : string) : string :=
  match s with
  | EmptyString => acc
  | String c rest =>
      if Ascii.eqb c (Ascii.ascii_of_nat 47) then last_segment "" rest
      else last_segment (acc +:+ String c "") rest
  end.

(** [log] of [src/tests/index.js]: the calls one tick makes, the
    identifier being the one [uuidv4] returned. *)
Definition tests_log (uuid : value) : list flow_op :=
  [CallSetLogId uuid;
   CallLog LInfo (VStr "Hello simple string") VUndefined;
   CallLog LInfo (VStr "Hello with object")
     (VObj {[ "username" := VStr "someUser" ]});
   CallLog LInfo (VStr "This is my account")
     (VObj {[ "account" := VObj {[ "username" := VStr "luis" ]} ]})].

(** The [logId] of every record of a run, in order. *)
Definition logIds (out : list (nat * Emission)) : list (option value) :=
  (λ r, em_field r.2 "logId") <$> out.

(** A reference for flows outside the middleware: one variable holds
    the correlation id of the whole process. *)
Fixpoint global_ids (current : value) (ops : list flow_op) : list (option value) :=
  match ops with
  | [] => []
  | CallSetLogId v :: ops' => global_ids v ops'
  | CallSetUserId _ :: ops' => global_ids current ops'
  | CallLog _ _ _ :: ops' =>
      (if truthy current then Some current else None) :: global_ids current ops'
  end.

(** * Construction *)

Section construction.

Implicit Types (metadata : obj) (options : value).
Implicit Types (customTransports created : list Transport).

Lemma field_missing (o : obj) k : o !! k = None → field o k = VUndefined.
Proof. intros H. unfold field. by rewrite H. Qed.

Lemma field_present (o : obj) k v : o !! k = Some v → field o k = v.
Proof. intros H. unfold field. by rewrite H. Qed.

Lemma compact_Some (l : list Transport) : compact (Some <$> l) = l.
Proof.
  unfold compact. induction l as [|t l IH]; [done|].
  simpl. f_equal. exact IH.
Qed.

Lemma validateMetadata_falsy metadata created :
  truthy (field metadata "service") = false
  ∨ truthy (field metadata "environment") = false →
  validateMetadata metadata created = (created, inl ConfigurationError).
Proof.
  intros H. unfold validateMetadata.
  destruct H as [-> | ->]; simpl; [done|].
  by rewrite orb_true_r.
Qed.

Lemma validateMetadata_truthy metadata created :
  truthy (field metadata "service") = true →
  truthy (field metadata "environment") = true →
  validateMetadata metadata created = (created, inr tt).
Proof. intros H1 H2. unfold validateMetadata. by rewrite H1, H2. Qed.

Lemma validateMetadata_missing metadata created :
  metadata !! "service" = None ∨ metadata !! "environment" = None →
  validateMetadata metadata created = (created, inl ConfigurationError).
Proof.
  intros [H | H]; apply validateMetadata_falsy; [left | right];
    by rewrite (field_missing _ _ H).
Qed.

Lemma V1_buildMetadataConfig_service metadata :
  V1.buildMetadataConfig metadata !! "service" = Some (field metadata "service").
Proof.
  unfold V1.buildMetadataConfig, Object_assign. simpl.
  apply lookup_union_Some_l. by simplify_map_eq.
Qed.

Lemma V1_buildMetadataConfig_environment metadata :
  V1.buildMetadataConfig metadata !! "environment"
  = Some (field metadata "environment").
Proof.
  unfold V1.buildMetadataConfig, Object_assign. simpl.
  apply lookup_union_Some_l. by simplify_map_eq.
Qed.

(** What the constructor of version 1 builds from valid metadata: the
    options select no transport. *)
Lemma V1_constructor_valid metadata options customTransports created :
  truthy (field metadata "service") = true →
  truthy (field metadata "environment") = true →
  V1.constructor metadata options customTransports created
  = let made :=
      if is_str (field metadata "environment") "test"
      then [Stream "/dev/null"] else [Console None] in
    (created ++ made,
     inr {| logger :=
              {| w_level := js_nullish (prop options "level") (VStr "info");
                 exitOnError := false;
                 w_format := if is_str (field metadata "environment") "dev"
                             then DevFormat else FORMAT_JSON;
                 defaultMeta := V1.buildMetadataConfig metadata;
                 transports := made ++ customTransports |};
            processName := VUndefined;
            classProcessName := VUndefined |}).
Proof.
  intros Hs He. unfold V1.constructor, mbind, Ctor_bind.
  rewrite validateMetadata_truthy by done.
  unfold V1.initializeLogger, V1._enableConsoleTransport,
    V1._enableDevNullTransport, V1.getDevFormat, mbind, Ctor_bind, mret, Ctor_ret,
    new_transport.
  unfold field at 1 2 3. rewrite V1_buildMetadataConfig_environment. simpl.
  destruct (is_str (field metadata "environment") "test") eqn:Ht; simpl;
    by rewrite <- (compact_Some customTransports) at 2.
Qed.

(** What the constructor of version 3 builds: a console transport
    always, then the HTTP and the file transport as the options ask. *)
Lemma V3_constructor_valid metadata options customTransports created :
  truthy (field metadata "service") = true →
  truthy (field metadata "environment") = true →
  V3.constructor metadata options customTransports created
  = let md := V3.buildMetadataConfig metadata in
    let remote :=
      if truthy options && truthy (prop options "datadog_api_key")
      then [Http "http-intake.logs.datadoghq.com"
              ("/v1/input/" +:+ to_string (prop options "datadog_api_key")
                 +:+ "?ddsource=nodejs&service=" +:+ to_string (field md "service"))
              true]
      else [] in
    let file :=
      if truthy options && truthy (prop options "filename")
      then [File (prop options "filename")] else [] in
    let made := Console (Some FORMAT_SIMPLE) :: remote ++ file in
    (created ++ made,
     inr {| logger :=
              {| w_level := VStr "info";
                 exitOnError := false;
                 w_format := FORMAT_JSON;
                 defaultMeta := md;
                 transports := made ++ customTransports |};
            processName := VUndefined;
            classProcessName := VUndefined |}).
Proof.
  intros Hs He. unfold V3.constructor, mbind, Ctor_bind.
  rewrite validateMetadata_truthy by done.
  unfold V3.initializeLogger, V3._enableConsoleTransport,
    V3._enableDatadogTransport, V3._enableFileTransport,
    mbind, Ctor_bind, mret, Ctor_ret, new_transport.
  destruct (truthy options && truthy (prop options "datadog_api_key"));
    destruct (truthy options && truthy (prop options "filename")); simpl;
    rewrite <- ?app_assoc; simpl;
    by rewrite <- (compact_Some customTransports) at 2.
Qed.

(** What the constructor of version 2 builds: the console transport,
    unless the environment is [test]. *)
Lemma V2_constructor_valid metadata options customTransports created :
  truthy (field metadata "service") = true →
  truthy (field metadata "environment") = true →
  V2.constructor metadata options customTransports created
  = let made :=
      if is_str (field metadata "environment") "test" then [] else [Console None] in
    (created ++ made,
     inr {| logger :=
              {| w_level := VStr "info";
                 exitOnError := false;
                 w_format := if is_str (field metadata "environment") "dev"
                             then FORMAT_SIMPLE else FORMAT_JSON;
                 defaultMeta := V2.buildMetadataConfig metadata;
                 transports := made ++ customTransports |};
            processName := VUndefined;
            classProcessName := VUndefined |}).
Proof.
  intros Hs He. unfold V2.constructor, mbind, Ctor_bind.
  rewrite validateMetadata_truthy by done.
  unfold V2.initializeLogger, V2._enableConsoleTransport,
    mbind, Ctor_bind, mret, Ctor_ret, new_transport.
  unfold field at 1 2. change (V2.buildMetadataConfig metadata) with
    (V1.buildMetadataConfig metadata).
  rewrite V1_buildMetadataConfig_environment. simpl.
  destruct (is_str (field metadata "environment") "test") eqn:Ht; simpl;
    rewrite ?app_nil_r; by rewrite <- (compact_Some customTransports) at 2.
Qed.

(** C4: when the metadata lacks [service] or lacks [environment], the
    constructor throws the configuration error to its caller, no logger
    is built, and no transport has been created by then: the list of
    created transports is the one the constructor started with.  The
    three versions agree. *)
Theorem constructor_rejects_missing_metadata
    metadata options customTransports created :
  metadata !! "service" = None ∨ metadata !! "environment" = None →
  V1.constructor metadata options customTransports created
    = (created, inl ConfigurationError)
  ∧ V2.constructor metadata options customTransports created
    = (created, inl ConfigurationError)
  ∧ V3.constructor metadata options customTransports created
    = (created, inl ConfigurationError).
Proof.
  intros H.
  unfold V1.constructor, V2.constructor, V3.constructor, mbind, Ctor_bind.
  by rewrite (validateMetadata_missing _ _ H).
Qed.

Lemma constructor_rejects_missing_metadata_witness :
  V1.constructor {[ "environment" := VStr "prod" ]} VUndefined [] []
    = ([], inl ConfigurationError)
  ∧ V2.constructor {[ "environment" := VStr "prod" ]} VUndefined [] []
    = ([], inl ConfigurationError)
  ∧ V3.constructor {[ "environment" := VStr "prod" ]} VUndefined [] []
    = ([], inl ConfigurationError).
Proof.
  apply (constructor_rejects_missing_metadata
           {[ "environment" := VStr "prod" ]} VUndefined [] []).
  left. reflexivity.
Defined.

(** In version 2 the environment [test] leaves the logger with the
    caller's transports only: there is no null transport. *)
Lemma V2_has_no_null_sink metadata options customTransports created :
  truthy (field metadata "service") = true →
  metadata !! "environment" = Some (VStr "test") →
  ∃ this,
    V2.constructor metadata options customTransports created = (created, inr this)
    ∧ transports (logger this) = customTransports.
Proof.
  intros Hs He. apply field_present in He.
  rewrite V2_constructor_valid by (by rewrite ?He).
  rewrite He. simpl. rewrite app_nil_r. eexists. by split.
Qed.

(** In version 3 the console transport is created whatever the
    environment, and no null transport is. *)
Lemma V3_always_console metadata options customTransports created :
  truthy (field metadata "service") = true →
  truthy (field metadata "environment") = true →
  ∃ this rest,
    V3.constructor metadata options customTransports created
      = (created ++ Console (Some FORMAT_SIMPLE) :: rest, inr this)
    ∧ transports (logger this)
      = Console (Some FORMAT_SIMPLE) :: rest ++ customTransports
    ∧ existsb is_null rest = false.
Proof.
  intros Hs He. rewrite V3_constructor_valid by done. simpl.
  eexists _, _. split; [reflexivity|]. split; [reflexivity|].
  by destruct (truthy options && truthy (prop options "datadog_api_key"));
    destruct (truthy options && truthy (prop options "filename")).
Qed.

(** C5 as stated fails in version 3: constructed under the environment
    [test], it registers the console transport and no null transport. *)
Lemma V3_test_registers_console :
  ∃ this,
    V3.constructor
      (<["service" := VStr "billing"]> {[ "environment" := VStr "test" ]})
      VUndefined [] []
      = ([Console (Some FORMAT_SIMPLE)], inr this)
    ∧ transports (logger this) = [Console (Some FORMAT_SIMPLE)]
    ∧ existsb is_console (transports (logger this)) = true
    ∧ existsb is_null (transports (logger this)) = false.
Proof.
  rewrite V3_constructor_valid by reflexivity.
  eexists. split; [reflexivity|]. by repeat split.
Qed.

(** C5, amended: under the environment [test] the constructor of
    version 1 creates the null transport and nothing else, and the
    transports of the logger are that null transport followed by the
    caller's own: the null sink is in the set and the selector puts no
    console sink in it.  Version 2 creates nothing, so its set has no
    console sink of the selector's and no null sink; version 3 creates
    the console transport and no null transport. *)
Theorem test_environment_sinks metadata options customTransports created :
  truthy (field metadata "service") = true →
  metadata !! "environment" = Some (VStr "test") →
  (∃ this,
     V1.constructor metadata options customTransports created
       = (created ++ [Stream "/dev/null"], inr this)
     ∧ transports (logger this) = Stream "/dev/null" :: customTransports
     ∧ existsb is_null (transports (logger this)) = true
     ∧ existsb is_console (transports (logger this))
       = existsb is_console customTransports)
  ∧ (∃ this,
       V2.constructor metadata options customTransports created = (created, inr this)
       ∧ transports (logger this) = customTransports)
  ∧ (∃ this,
       (V3.constructor metadata options customTransports created).2 = inr this
       ∧ existsb is_console (transports (logger this)) = true
       ∧ existsb is_null (transports (logger this))
         = existsb is_null customTransports).
Proof.
  intros Hs He. split; [|split].
  - apply field_present in He.
    rewrite V1_constructor_valid by (by rewrite ?He).
    rewrite He. simpl. eexists. split; [reflexivity|]. simpl. done.
  - by apply V2_has_no_null_sink.
  - apply field_present in He.
    destruct (V3_always_console metadata options customTransports created)
      as (this & rest & -> & Ht & Hn); [done | by rewrite He |].
    exists this. split; [done|]. rewrite Ht. simpl. split; [done|].
    by rewrite existsb_app, Hn.
Qed.

Lemma test_environment_sinks_witness :
  (∃ this,
     V1.constructor
       (<["service" := VStr "billing"]> {[ "environment" := VStr "test" ]})
       prod_options [] []
       = ([] ++ [Stream "/dev/null"], inr this)
     ∧ transports (logger this) = [Stream "/dev/null"]
     ∧ existsb is_null (transports (logger this)) = true
     ∧ existsb is_console (transports (logger this)) = existsb is_console [])
  ∧ (∃ this,
       V2.constructor
         (<["service" := VStr "billing"]> {[ "environment" := VStr "test" ]})
         prod_options [] []
         = ([], inr this)
       ∧ transports (logger this) = [])
  ∧ (∃ this,
       (V3.constructor
          (<["service" := VStr "billing"]> {[ "environment" := VStr "test" ]})
          prod_options [] []).2 = inr this
       ∧ existsb is_console (transports (logger this)) = true
       ∧ existsb is_null (transports (logger this)) = existsb is_null []).
Proof.
  apply (test_environment_sinks
           (<["service" := VStr "billing"]> {[ "environment" := VStr "test" ]})
           prod_options [] []); reflexivity.
Defined.

(** C6: the code at the failing input.  Version 1, constructed as
    [src/tests/index.js] does, environment [dev] and a [filename], creates
    the console transport alone; no file transport is in the set. *)
Theorem V1_dev_filename_sinks :
  ∃ this,
    V1.constructor tests_metadata tests_options [] [] = ([Console None], inr this)
    ∧ transports (logger this) = [Console None]
    ∧ existsb is_file (transports (logger this)) = false.
Proof.
  rewrite V1_constructor_valid by reflexivity.
  eexists. split; [reflexivity|]. by split.
Qed.

(** Version 1 never registers a file transport of its own, whatever the
    options. *)
Lemma V1_no_file_sink metadata options customTransports created this created' :
  V1.constructor metadata options customTransports created = (created', inr this) →
  existsb is_file (transports (logger this)) = existsb is_file customTransports.
Proof.
  destruct (truthy (field metadata "service")) eqn:Hs;
    [destruct (truthy (field metadata "environment")) eqn:He|].
  - rewrite V1_constructor_valid by done. simpl. intros [= _ <-]. simpl.
    by destruct (is_str _ _).
  - unfold V1.constructor, mbind, Ctor_bind.
    rewrite validateMetadata_falsy by auto. done.
  - unfold V1.constructor, mbind, Ctor_bind.
    rewrite validateMetadata_falsy by auto. done.
Qed.

(** Version 3 does what C6 says: with a [filename] and no API key the
    set is the console and the file transport, then the caller's own. *)
Lemma V3_filename_sinks metadata options customTransports created :
  truthy (field metadata "service") = true →
  truthy (field metadata "environment") = true →
  truthy options && truthy (prop options "filename") = true →
  truthy (prop options "datadog_api_key") = false →
  ∃ this,
    V3.constructor metadata options customTransports created
      = (created ++ [Console (Some FORMAT_SIMPLE); File (prop options "filename")],
         inr this)
    ∧ transports (logger this)
      = [Console (Some FORMAT_SIMPLE); File (prop options "filename")]
          ++ customTransports.
Proof.
  intros Hs He Hf Hk. rewrite V3_constructor_valid by done.
  rewrite Hf, Hk, andb_false_r. simpl. eexists. by split.
Qed.

(** C7: the code at the failing input.  Version 1, given an API key
    under the environment [prod], creates the console transport alone;
    no remote transport is in the set. *)
Theorem V1_api_key_sinks :
  ∃ this,
    V1.constructor prod_metadata prod_options [] [] = ([Console None], inr this)
    ∧ transports (logger this) = [Console None]
    ∧ existsb is_remote (transports (logger this)) = false.
Proof.
  rewrite V1_constructor_valid by reflexivity.
  eexists. split; [reflexivity|]. by split.
Qed.

(** The helper of version 1 decides as C7 says, but [initializeLogger]
    does not call it. *)
Lemma V1_enableDatadogTransport_spec options metadata created :
  V1._enableDatadogTransport options metadata created
  = if truthy options && truthy (prop options "datadog_api_key")
       && negb (is_str (field metadata "environment") "test")
    then
      let remote :=
        Http "http-intake.logs.datadoghq.com"
          ("/v1/input/" +:+ to_string (prop options "datadog_api_key")
             +:+ "?ddsource=nodejs&service="
             +:+ to_string (field metadata "service"))
          true in
      (created ++ [remote], inr (Some remote))
    else (created, inr None).
Proof.
  unfold V1._enableDatadogTransport, mbind, Ctor_bind, mret, Ctor_ret,
    new_transport.
  destruct (is_str (field metadata "environment") "test"); simpl.
  - by rewrite andb_false_r.
  - rewrite andb_true_r.
    by destruct (truthy options && truthy (prop options "datadog_api_key")).
Qed.

(** Version 3 registers the remote transport whenever an API key is
    given, also under the environment [test]. *)
Lemma V3_api_key_sinks_under_test :
  ∃ this remote,
    V3.constructor
      (<["service" := VStr "billing"]> {[ "environment" := VStr "test" ]})
      prod_options [] []
      = ([Console (Some FORMAT_SIMPLE); remote], inr this)
    ∧ is_remote remote = true
    ∧ transports (logger this) = [Console (Some FORMAT_SIMPLE); remote].
Proof.
  rewrite V3_constructor_valid by reflexivity.
  eexists _, _. split; [reflexivity|]. by split.
Qed.

End construction.

Section records.

Implicit Types (this : Logger) (ns : Namespace) (level : Level).
Implicit Types (message opts extra : value).

Lemma default_opts_idemp opts : default_opts (default_opts opts) = default_opts opts.
Proof. by destruct opts. Qed.

Lemma V1_facade_doLog level this ns message opts :
  V1.facade level this ns message opts
  = V1.doLog this ns level message (default_opts opts).
Proof.
  destruct level; simpl;
    unfold V1.info, V1.error, V1.warn, V1.debug, V1.i, V1.e, V1.w, V1.d;
    by rewrite !default_opts_idemp.
Qed.

(** The single-letter and alias forms are the four canonical methods. *)
Lemma V1_aliases this ns message opts :
  V1.i this ns message opts = V1.info this ns message opts
  ∧ V1.l this ns message opts = V1.info this ns message opts
  ∧ V1.log this ns message opts = V1.info this ns message opts
  ∧ V1.e this ns message opts = V1.error this ns message opts
  ∧ V1.w this ns message opts = V1.warn this ns message opts
  ∧ V1.warning this ns message opts = V1.warn this ns message opts
  ∧ V1.d this ns message opts = V1.debug this ns message opts.
Proof.
  unfold V1.info, V1.l, V1.log, V1.error, V1.warn, V1.warning, V1.debug,
    V1.i, V1.e, V1.w, V1.d.
  by rewrite !default_opts_idemp.
Qed.

Lemma V2_facade_doLog level this ns message opts :
  V2.facade level this ns message opts = V2.doLog this ns level message opts.
Proof. by destruct level. Qed.

Lemma V3_facade_doLog level this ns message opts :
  V3.facade level this ns message opts = V3.doLog this ns level message opts.
Proof. by destruct level. Qed.

Lemma V1_doLog_fallback this ns level message opts :
  truthy (processName this) = false →
  V1.doLog this ns level message opts
  = inr {| em_logger := logger this; em_level := level;
           em_message := VStr "No process name set on logger";
           em_meta := None |}.
Proof. intros H. unfold V1.doLog. by rewrite H. Qed.

Lemma V3_doLog_fallback this ns level message opts :
  truthy (processName this) = false →
  V3.doLog this ns level message opts
  = inr {| em_logger := logger this; em_level := level;
           em_message := UsageError; em_meta := None |}.
Proof. intros H. unfold V3.doLog. by rewrite H. Qed.

Lemma truthy_js_or_null v : truthy (js_or v VNull) = truthy v.
Proof. unfold js_or. by destruct (truthy v) eqn:H. Qed.

Lemma js_or_null_truthy v : truthy v = true → js_or v VNull = v.
Proof. unfold js_or. by intros ->. Qed.

(** The record version 1 assembles once a process name is set. *)
Lemma V1_doLog_ready this ns level message opts :
  truthy (processName this) = true →
  ∃ meta,
    V1.doLog this ns level message opts
    = inr {| em_logger := logger this; em_level := level;
             em_message :=
               VStr ("[" +:+ to_string (processName this) +:+ "]: "
                       +:+ to_string message);
             em_meta := Some meta |}
    ∧ meta !! "metadata" = Some (V1.parseMetadata this opts level)
    ∧ meta !! "logId"
      = (if truthy (getLogId ns) then Some (getLogId ns) else None)
    ∧ meta !! "userId"
      = (if truthy (getUserId ns) then Some (getUserId ns) else None)
    ∧ meta !! "processName" = Some (processName this)
    ∧ ∀ k, k ≠ "metadata" → k ≠ "logId" → k ≠ "userId" → k ≠ "processName" →
           meta !! k = None.
Proof.
  intros H. unfold V1.doLog. rewrite H. simpl.
  eexists. split; [reflexivity|].
  rewrite !truthy_js_or_null. unfold Object_assign. simpl.
  rewrite (right_id_L ∅ (∪)).
  destruct (truthy (getLogId ns)) eqn:Hl; destruct (truthy (getUserId ns)) eqn:Hu;
    rewrite ?(js_or_null_truthy _ Hl), ?(js_or_null_truthy _ Hu);
    repeat split; intros; by simplify_map_eq.
Qed.

(** The record version 2 assembles: the extra is copied into the top
    level and the ids are written over it. *)
Lemma V2_doLog_record this ns level message opts :
  ∃ meta,
    V2.doLog this ns level message opts
    = inr {| em_logger := logger this; em_level := level;
             em_message := VStr (to_string message);
             em_meta := Some meta |}
    ∧ meta !! "logId"
      = (if truthy (getLogId ns) then Some (getLogId ns)
         else own_props opts !! "logId")
    ∧ meta !! "trace_id"
      = (if truthy (getLogId ns) then Some (getLogId ns)
         else own_props opts !! "trace_id")
    ∧ meta !! "userId"
      = (if truthy (getUserId ns) then Some (getUserId ns)
         else own_props opts !! "userId")
    ∧ ∀ k, k ≠ "logId" → k ≠ "trace_id" → k ≠ "userId" →
           meta !! k = own_props opts !! k.
Proof.
  unfold V2.doLog. simpl. eexists. split; [reflexivity|].
  rewrite !truthy_js_or_null. unfold Object_assign.
  rewrite (right_id_L ∅ (∪)).
  destruct (truthy (getLogId ns)) eqn:Hl; destruct (truthy (getUserId ns)) eqn:Hu;
    rewrite ?(js_or_null_truthy _ Hl), ?(js_or_null_truthy _ Hu);
    repeat split; intros; by simplify_map_eq.
Qed.

(** The record version 3 assembles once a process name is set. *)
Lemma V3_doLog_ready this ns level message opts :
  truthy (processName this) = true →
  ∃ meta,
    V3.doLog this ns level message opts
    = inr {| em_logger := logger this; em_level := level;
             em_message :=
               VStr ("[" +:+ to_string (processName this) +:+ "]: "
                       +:+ to_string message);
             em_meta := Some meta |}
    ∧ meta !! "logId"
      = (if truthy (getLogId ns) then Some (getLogId ns)
         else own_props opts !! "logId")
    ∧ meta !! "trace_id"
      = (if truthy (getLogId ns) then Some (getLogId ns)
         else own_props opts !! "trace_id")
    ∧ meta !! "userId"
      = (if truthy (getUserId ns) then Some (getUserId ns)
         else own_props opts !! "userId")
    ∧ meta !! "processName" = Some (processName this)
    ∧ ∀ k, k ≠ "logId" → k ≠ "trace_id" → k ≠ "userId" → k ≠ "processName" →
           meta !! k = own_props opts !! k.
Proof.
  intros H. unfold V3.doLog. rewrite H. simpl.
  eexists. split; [reflexivity|].
  rewrite !truthy_js_or_null. unfold Object_assign.
  rewrite (right_id_L ∅ (∪)).
  destruct (truthy (getLogId ns)) eqn:Hl; destruct (truthy (getUserId ns)) eqn:Hu;
    rewrite ?(js_or_null_truthy _ Hl), ?(js_or_null_truthy _ Hu);
    repeat split; intros; by simplify_map_eq.
Qed.

(** Version 2 asks for no process name: the same call assembles the
    ordinary record. *)
Lemma V2_unset_process_name level this ns message opts :
  ∃ meta,
    V2.facade level this ns message opts
    = inr {| em_logger := logger this; em_level := level;
             em_message := VStr (to_string message); em_meta := Some meta |}.
Proof.
  rewrite V2_facade_doLog.
  destruct (V2_doLog_record this ns level message opts) as (meta & -> & _).
  by exists meta.
Qed.

(** C3: with no process name set, the level method of every severity
    returns normally.  In the two versions that throw the usage error
    the error is caught, and one record is handed to the same backend
    logger at the same severity, carrying the message of the caught error
    (version 1) or the caught error itself (version 3); version 2 throws
    nothing and hands over the ordinary record. *)
Theorem unset_process_name_falls_back level this ns message opts :
  truthy (processName this) = false →
  V1.facade level this ns message opts
    = inr {| em_logger := logger this; em_level := level;
             em_message := prop UsageError "message"; em_meta := None |}
  ∧ V3.facade level this ns message opts
    = inr {| em_logger := logger this; em_level := level;
             em_message := UsageError; em_meta := None |}
  ∧ prop UsageError "message" = VStr "No process name set on logger"
  ∧ ∃ meta,
      V2.facade level this ns message opts
      = inr {| em_logger := logger this; em_level := level;
               em_message := VStr (to_string message); em_meta := Some meta |}.
Proof.
  intros H. rewrite V1_facade_doLog, V3_facade_doLog.
  rewrite V1_doLog_fallback, V3_doLog_fallback by done.
  repeat split. apply V2_unset_process_name.
Qed.

Lemma unset_process_name_falls_back_witness :
  V1.facade LError prod_logger ns_initial (VStr "boom") VUndefined
    = inr {| em_logger := logger prod_logger; em_level := LError;
             em_message := prop UsageError "message"; em_meta := None |}
  ∧ V3.facade LError prod_logger ns_initial (VStr "boom") VUndefined
    = inr {| em_logger := logger prod_logger; em_level := LError;
             em_message := UsageError; em_meta := None |}
  ∧ prop UsageError "message" = VStr "No process name set on logger"
  ∧ ∃ meta,
      V2.facade LError prod_logger ns_initial (VStr "boom") VUndefined
      = inr {| em_logger := logger prod_logger; em_level := LError;
               em_message := VStr (to_string (VStr "boom"));
               em_meta := Some meta |}.
Proof.
  apply (unset_process_name_falls_back LError prod_logger ns_initial
           (VStr "boom") VUndefined).
  reflexivity.
Defined.

(** C8: an error-shaped payload logged at severity [error].  Under the
    environment [prod] the metadata is a plain object exposing the
    [message], the [name] and the [stack] of the error, a stack that is
    not empty when the error's is not; under the local-dev marker
    ([LOCAL_DEV_ENVIRONMENT]) it is the error object itself, the same
    identity included. *)
Theorem error_payload_normalised this (id : nat) (name msg stack : string)
    (cause : option value) :
  stack ≠ "" →
  (field (defaultMeta (logger this)) "environment" = VStr "prod" →
   ∃ plain : obj,
     V1.parseMetadata this (VError id name msg stack cause) LError = VObj plain
     ∧ plain !! "message" = Some (VStr msg)
     ∧ plain !! "name" = Some (VStr name)
     ∧ plain !! "stack" = Some (VStr stack)
     ∧ truthy (VStr stack) = true)
  ∧ (field (defaultMeta (logger this)) "environment"
       = VStr V1.LOCAL_DEV_ENVIRONMENT →
     V1.parseMetadata this (VError id name msg stack cause) LError
     = VError id name msg stack cause).
Proof.
  intros Hstack. split; intros He; unfold V1.parseMetadata; rewrite He; simpl.
  - eexists. split; [reflexivity|].
    repeat split.
    + destruct cause; by simplify_map_eq.
    + destruct cause; by simplify_map_eq.
    + destruct cause; by simplify_map_eq.
    + destruct stack; [done|]. reflexivity.
  - reflexivity.
Qed.

Lemma error_payload_normalised_witness :
  (∃ plain : obj,
     V1.parseMetadata prod_logger
       (VError 7 "Error" "boom" "Error: boom at <anonymous>" None) LError
     = VObj plain
     ∧ plain !! "message" = Some (VStr "boom")
     ∧ plain !! "name" = Some (VStr "Error")
     ∧ plain !! "stack" = Some (VStr "Error: boom at <anonymous>")
     ∧ truthy (VStr "Error: boom at <anonymous>") = true)
  ∧ V1.parseMetadata local_dev_logger
      (VError 7 "Error" "boom" "Error: boom at <anonymous>" None) LError
    = VError 7 "Error" "boom" "Error: boom at <anonymous>" None.
Proof.
  split.
  - apply (error_payload_normalised prod_logger 7 "Error" "boom"
             "Error: boom at <anonymous>" None); [discriminate | reflexivity].
  - apply (error_payload_normalised local_dev_logger 7 "Error" "boom"
             "Error: boom at <anonymous>" None); [discriminate | reflexivity].
Defined.

(** At the other severities the payload is handed on as it is, in every
    environment; and the marker is the upper-case [DEV], which the
    environment [dev] does not match. *)
Lemma parseMetadata_other_levels this opts level :
  level ≠ LError → V1.parseMetadata this opts level = opts.
Proof. intros H. unfold V1.parseMetadata. by destruct level. Qed.

Lemma parseMetadata_dev_is_not_marker this opts :
  field (defaultMeta (logger this)) "environment" = VStr "dev" →
  V1.parseMetadata this opts LError = serializeError opts.
Proof. intros He. unfold V1.parseMetadata. by rewrite He. Qed.

(** C9 as stated fails in version 3: with a correlation id present
    but no process name set, the record is the fallback, which carries
    neither [trace_id] nor [logId]. *)
Lemma V3_fallback_has_no_trace_id :
  ∃ this r,
    V3.constructor prod_metadata VUndefined [] []
      = ([Console (Some FORMAT_SIMPLE)], inr this)
    ∧ truthy (getLogId request_ns) = true
    ∧ V3.facade LInfo this request_ns (VStr "hello") (VObj ∅) = inr r
    ∧ em_field r "trace_id" = None
    ∧ em_field r "logId" = None.
Proof.
  rewrite V3_constructor_valid by reflexivity.
  eexists _, _. split; [reflexivity|]. split; [reflexivity|].
  rewrite V3_facade_doLog, V3_doLog_fallback by reflexivity.
  split; [reflexivity|]. by split.
Qed.

(** C9, amended: in the two versions that mirror the correlation id, a
    log call made while the [logId] of the flow is truthy emits a record
    whose [trace_id] and [logId] are both that value -- in version 2
    always, in version 3 provided a process name is set. *)
Theorem logId_mirrored_into_trace_id level this ns message opts :
  truthy (getLogId ns) = true →
  (∃ r, V2.facade level this ns message opts = inr r
        ∧ em_field r "trace_id" = Some (getLogId ns)
        ∧ em_field r "logId" = Some (getLogId ns))
  ∧ (truthy (processName this) = true →
     ∃ r, V3.facade level this ns message opts = inr r
          ∧ em_field r "trace_id" = Some (getLogId ns)
          ∧ em_field r "logId" = Some (getLogId ns)).
Proof.
  intros Hl. split.
  - rewrite V2_facade_doLog.
    destruct (V2_doLog_record this ns level message opts)
      as (meta & -> & Hlog & Htrace & _).
    rewrite Hl in Hlog, Htrace. eexists. split; [reflexivity|]. by split.
  - intros Hp. rewrite V3_facade_doLog.
    destruct (V3_doLog_ready this ns level message opts Hp)
      as (meta & -> & Hlog & Htrace & _).
    rewrite Hl in Hlog, Htrace. eexists. split; [reflexivity|]. by split.
Qed.

Lemma logId_mirrored_into_trace_id_witness :
  (∃ r, V2.facade LWarn (setProcess (VStr "index.js") prod_logger) request_ns
          (VStr "hello") (VObj ∅) = inr r
        ∧ em_field r "trace_id" = Some (getLogId request_ns)
        ∧ em_field r "logId" = Some (getLogId request_ns))
  ∧ (∃ r, V3.facade LWarn (setProcess (VStr "index.js") prod_logger) request_ns
            (VStr "hello") (VObj ∅) = inr r
          ∧ em_field r "trace_id" = Some (getLogId request_ns)
          ∧ em_field r "logId" = Some (getLogId request_ns)).
Proof.
  destruct (logId_mirrored_into_trace_id LWarn
              (setProcess (VStr "index.js") prod_logger) request_ns
              (VStr "hello") (VObj ∅)) as [H2 H3]; [reflexivity|].
  split; [exact H2 | apply H3; reflexivity].
Defined.

(** The truthy ids are injected. *)
Lemma truthy_ids_injected level this ns message opts :
  truthy (processName this) = true →
  ∃ r, V1.facade level this ns message opts = inr r
       ∧ (truthy (getLogId ns) = true → em_field r "logId" = Some (getLogId ns))
       ∧ (truthy (getUserId ns) = true → em_field r "userId" = Some (getUserId ns)).
Proof.
  intros Hp. rewrite V1_facade_doLog.
  destruct (V1_doLog_ready this ns level message (default_opts opts) Hp)
    as (meta & -> & _ & Hlog & Huser & _).
  eexists. split; [reflexivity|]. unfold em_field. simpl. split.
  - intros Hl. by rewrite Hl in Hlog.
  - intros Hu. by rewrite Hu in Huser.
Qed.

(** In version 2 the extra is copied into the top level of the record,
    so with a falsy id the record has one of these fields exactly when
    the extra brings it. *)
Lemma V2_ids_follow_extra level this ns message opts :
  ∃ r, V2.facade level this ns message opts = inr r
       ∧ (truthy (getLogId ns) = false →
          em_field r "logId" = own_props opts !! "logId"
          ∧ em_field r "trace_id" = own_props opts !! "trace_id")
       ∧ (truthy (getUserId ns) = false →
          em_field r "userId" = own_props opts !! "userId").
Proof.
  rewrite V2_facade_doLog.
  destruct (V2_doLog_record this ns level message opts)
    as (meta & -> & Hlog & Htrace & Huser & _).
  eexists. split; [reflexivity|]. unfold em_field. simpl. split.
  - intros Hl. by rewrite Hl in Hlog, Htrace.
  - intros Hu. by rewrite Hu in Huser.
Qed.

(** The same in version 3 once a process name is set; without one the
    fallback record has no field at all. *)
Lemma V3_ids_follow_extra level this ns message opts :
  let brought k :=
    if truthy (processName this) then own_props opts !! k else None in
  ∃ r, V3.facade level this ns message opts = inr r
       ∧ (truthy (getLogId ns) = false →
          em_field r "logId" = brought "logId"
          ∧ em_field r "trace_id" = brought "trace_id")
       ∧ (truthy (getUserId ns) = false → em_field r "userId" = brought "userId").
Proof.
  simpl. rewrite V3_facade_doLog.
  destruct (truthy (processName this)) eqn:Hp.
  - destruct (V3_doLog_ready this ns level message opts Hp)
      as (meta & -> & Hlog & Htrace & Huser & _).
    eexists. split; [reflexivity|]. unfold em_field. simpl. split.
    + intros Hl. by rewrite Hl in Hlog, Htrace.
    + intros Hu. by rewrite Hu in Huser.
  - rewrite V3_doLog_fallback by done.
    eexists. split; [reflexivity|]. by split.
Qed.

(** C10 as stated fails in version 2: no [logId] is set for the flow,
    yet the record has a [logId] field, the one the per-call extra
    brought. *)
Lemma V2_extra_brings_logId :
  ∃ this r,
    V2.constructor prod_metadata VUndefined [] [] = ([Console None], inr this)
    ∧ truthy (getLogId ns_initial) = false
    ∧ V2.facade LInfo this ns_initial (VStr "hello")
        (VObj {[ "logId" := VStr "mine" ]}) = inr r
    ∧ em_field r "logId" = Some (VStr "mine").
Proof.
  rewrite V2_constructor_valid by reflexivity.
  eexists _, _. split; [reflexivity|]. split; [reflexivity|].
  split; [reflexivity|]. by vm_compute.
Qed.

(** C10, amended: a flow whose [logId] is absent or falsy gets no
    [logId] and no [trace_id] injected, and a flow whose [userId] is
    absent or falsy gets no [userId] injected, at every severity and
    whether or not a process name is set.  In version 1 the record then
    has no such field at all; in versions 2 and 3, which copy the per-call
    extra into the top level of the record, it has the field exactly when
    the extra brings it (and never on the fallback path of version 3). *)
Theorem falsy_ids_not_injected level this ns message opts :
  let brought k :=
    if truthy (processName this) then own_props opts !! k else None in
  (∃ r, V1.facade level this ns message opts = inr r
        ∧ (truthy (getLogId ns) = false →
           em_field r "logId" = None ∧ em_field r "trace_id" = None)
        ∧ (truthy (getUserId ns) = false → em_field r "userId" = None))
  ∧ (∃ r, V2.facade level this ns message opts = inr r
          ∧ (truthy (getLogId ns) = false →
             em_field r "logId" = own_props opts !! "logId"
             ∧ em_field r "trace_id" = own_props opts !! "trace_id")
          ∧ (truthy (getUserId ns) = false →
             em_field r "userId" = own_props opts !! "userId"))
  ∧ (∃ r, V3.facade level this ns message opts = inr r
          ∧ (truthy (getLogId ns) = false →
             em_field r "logId" = brought "logId"
             ∧ em_field r "trace_id" = brought "trace_id")
          ∧ (truthy (getUserId ns) = false →
             em_field r "userId" = brought "userId")).
Proof.
  simpl. split; [|split].
  - rewrite V1_facade_doLog.
    destruct (truthy (processName this)) eqn:Hp.
    + destruct (V1_doLog_ready this ns level message (default_opts opts) Hp)
        as (meta & -> & _ & Hlog & Huser & _ & Hother).
      eexists. split; [reflexivity|]. unfold em_field. simpl. split.
      * intros Hl. rewrite Hl in Hlog. split; [done|]. by apply Hother.
      * intros Hu. by rewrite Hu in Huser.
    + rewrite V1_doLog_fallback by done.
      eexists. split; [reflexivity|]. by split.
  - apply V2_ids_follow_extra.
  - apply V3_ids_follow_extra.
Qed.

Lemma falsy_ids_not_injected_witness :
  ∃ r, V1.facade LInfo (setProcess (VStr "index.js") prod_logger)
         (setLogId (VStr "") ns_initial) (VStr "hello") (VObj ∅) = inr r
       ∧ em_field r "logId" = None ∧ em_field r "trace_id" = None
       ∧ em_field r "userId" = None.
Proof.
  destruct (falsy_ids_not_injected LInfo (setProcess (VStr "index.js") prod_logger)
              (setLogId (VStr "") ns_initial) (VStr "hello") (VObj ∅))
    as ((r & Hr & Hl & Hu) & _).
  exists r. split; [exact Hr|].
  destruct (Hl eq_refl) as [H1 H2]. split; [exact H1|]. split; [exact H2|].
  exact (Hu eq_refl).
Defined.

Lemma prod_logger_constructed :
  V1.constructor prod_metadata VUndefined [] [] = ([Console None], inr prod_logger).
Proof. by rewrite V1_constructor_valid. Qed.

Lemma V1_constructed_defaultMeta metadata options customTransports created
    created' this :
  V1.constructor metadata options customTransports created = (created', inr this) →
  defaultMeta (logger this) = V1.buildMetadataConfig metadata.
Proof.
  destruct (truthy (field metadata "service")) eqn:Hs;
    [destruct (truthy (field metadata "environment")) eqn:He|].
  - rewrite V1_constructor_valid by done. simpl. by intros [= _ <-].
  - unfold V1.constructor, mbind, Ctor_bind.
    rewrite validateMetadata_falsy by auto. done.
  - unfold V1.constructor, mbind, Ctor_bind.
    rewrite validateMetadata_falsy by auto. done.
Qed.

Lemma delivered_base (e : Emission) (k : string) :
  em_field e k = None → delivered e !! k = defaultMeta (em_logger e) !! k.
Proof.
  unfold em_field, delivered, Object_assign. simpl.
  destruct (em_meta e) as [meta|]; simpl; intros H;
    by rewrite ?(lookup_union_r _ _ _ H), (right_id_L ∅ (∪)).
Qed.

Lemma delivered_field (e : Emission) (k : string) v :
  em_field e k = Some v → delivered e !! k = Some v.
Proof.
  unfold em_field, delivered, Object_assign. simpl.
  destruct (em_meta e) as [meta|]; simpl; [|done].
  intros H. by apply lookup_union_Some_l.
Qed.

(** On every path of [doLog] in version 1 the record goes to the
    constructed backend logger, and the fields of the call have neither a
    [service] nor an [environment] key. *)
Lemma V1_doLog_total_fields metadata options customTransports created created'
    this0 name ns level message extra :
  V1.constructor metadata options customTransports created = (created', inr this0) →
  ∃ r, V1.facade level (setProcess name this0) ns message extra = inr r
       ∧ defaultMeta (em_logger r) !! "service" = Some (field metadata "service")
       ∧ defaultMeta (em_logger r) !! "environment"
         = Some (field metadata "environment")
       ∧ em_field r "service" = None
       ∧ em_field r "environment" = None.
Proof.
  intros Hc. apply V1_constructed_defaultMeta in Hc.
  rewrite V1_facade_doLog.
  destruct (truthy name) eqn:Hp.
  - destruct (V1_doLog_ready (setProcess name this0) ns level message
                (default_opts extra) Hp)
      as (meta & -> & _ & _ & _ & _ & Hother).
    eexists. split; [reflexivity|]. unfold em_field. simpl. rewrite Hc.
    rewrite V1_buildMetadataConfig_service, V1_buildMetadataConfig_environment.
    repeat split; try done; by apply Hother.
  - rewrite V1_doLog_fallback by done.
    eexists. split; [reflexivity|]. unfold em_field. simpl. rewrite Hc.
    rewrite V1_buildMetadataConfig_service, V1_buildMetadataConfig_environment.
    by repeat split.
Qed.

(** C2 as stated fails on the fallback path: a logger of version 1 with
    no process name set emits a record that carries nothing of the
    per-call extra. *)
Lemma V1_fallback_drops_extra :
  ∃ this r,
    V1.constructor prod_metadata VUndefined [] [] = ([Console None], inr this)
    ∧ V1.facade LInfo this ns_initial (VStr "hello")
        (VObj {[ "user" := VStr "u" ]}) = inr r
    ∧ em_message r = VStr "No process name set on logger"
    ∧ em_meta r = None
    ∧ em_field r "metadata" = None.
Proof.
  rewrite V1_constructor_valid by reflexivity.
  eexists _, _. split; [reflexivity|].
  rewrite V1_facade_doLog, V1_doLog_fallback by reflexivity.
  split; [reflexivity|]. by repeat split.
Qed.

(** C2, amended: for a logger version 1 has constructed, whatever
    process name is or is not set on it, every severity and every extra,
    the record goes to the backend logger whose static metadata has the
    [service] and the [environment] of the configuration, and the fields
    of the call carry neither key, so the extra cannot override them.
    Once a process name is set, the [metadata] field of the record is
    the extra itself at every severity but [error], and at [error] under
    the local-dev marker; at [error] outside the marker it is
    [serializeError] of the extra.  With no process name set the record
    carries no field at all.  Versions 2 and 3 copy the extra into the
    top level instead: there the fields of the call have a [service] or
    an [environment] key exactly when the extra brings one, except on
    the fallback path of version 3, where the record carries no field. *)
Theorem record_keeps_base metadata options customTransports created created'
    this0 name ns level message extra :
  V1.constructor metadata options customTransports created = (created', inr this0) →
  let marker := is_str (field metadata "environment") V1.LOCAL_DEV_ENVIRONMENT in
  let brought k := if truthy name then own_props extra !! k else None in
  (∃ r, V1.facade level (setProcess name this0) ns message extra = inr r
        ∧ em_logger r = logger this0
        ∧ defaultMeta (em_logger r) !! "service" = Some (field metadata "service")
        ∧ defaultMeta (em_logger r) !! "environment"
          = Some (field metadata "environment")
        ∧ em_field r "service" = None
        ∧ em_field r "environment" = None
        ∧ (truthy name = true → level ≠ LError →
           em_field r "metadata" = Some (default_opts extra))
        ∧ (truthy name = true → level = LError → marker = true →
           em_field r "metadata" = Some (default_opts extra))
        ∧ (truthy name = true → level = LError → marker = false →
           em_field r "metadata" = Some (serializeError (default_opts extra)))
        ∧ (truthy name = false → em_meta r = None))
  ∧ (∃ r, V2.facade level (setProcess name this0) ns message extra = inr r
          ∧ em_field r "service" = own_props extra !! "service"
          ∧ em_field r "environment" = own_props extra !! "environment")
  ∧ (∃ r, V3.facade level (setProcess name this0) ns message extra = inr r
          ∧ em_field r "service" = brought "service"
          ∧ em_field r "environment" = brought "environment").
Proof.
  intros Hc. apply V1_constructed_defaultMeta in Hc. cbv zeta.
  split; [|split].
  - rewrite V1_facade_doLog.
    destruct (truthy name) eqn:Hp.
    + destruct (V1_doLog_ready (setProcess name this0) ns level message
                  (default_opts extra) Hp)
        as (meta & -> & Hmeta & _ & _ & _ & Hother).
      assert (Henv : field (defaultMeta (logger (setProcess name this0)))
                       "environment" = field metadata "environment").
      { simpl. rewrite Hc. unfold field at 1.
        by rewrite V1_buildMetadataConfig_environment. }
      eexists. split; [reflexivity|]. unfold em_field. simpl. rewrite Hc.
      rewrite V1_buildMetadataConfig_service, V1_buildMetadataConfig_environment.
      rewrite Hmeta. unfold V1.parseMetadata. rewrite Henv.
      repeat split; try done; try (by apply Hother).
      * intros _ Hl. by destruct level.
      * intros _ -> ->. by rewrite orb_true_r.
      * intros _ -> ->. done.
    + rewrite V1_doLog_fallback by done.
      eexists. split; [reflexivity|]. unfold em_field. simpl. rewrite Hc.
      rewrite V1_buildMetadataConfig_service, V1_buildMetadataConfig_environment.
      by repeat split.
  - rewrite V2_facade_doLog.
    destruct (V2_doLog_record (setProcess name this0) ns level message extra)
      as (meta & -> & _ & _ & _ & Hother).
    eexists. split; [reflexivity|]. unfold em_field. simpl.
    split; by apply Hother.
  - rewrite V3_facade_doLog. destruct (truthy name) eqn:Hp.
    + destruct (V3_doLog_ready (setProcess name this0) ns level message extra Hp)
        as (meta & -> & _ & _ & _ & _ & Hother).
      eexists. split; [reflexivity|]. unfold em_field. simpl.
      split; by apply Hother.
    + rewrite V3_doLog_fallback by done.
      eexists. split; [reflexivity|]. by split.
Qed.

Lemma record_keeps_base_witness :
  (∃ r, V1.facade LError (setProcess (VStr "index.js") prod_logger) request_ns
          (VStr "failed") (VError 7 "Error" "boom" "Error: boom" None) = inr r
        ∧ defaultMeta (em_logger r) !! "service" = Some (VStr "billing")
        ∧ defaultMeta (em_logger r) !! "environment" = Some (VStr "prod")
        ∧ em_field r "service" = None
        ∧ em_field r "metadata"
          = Some (VObj (<["name" := VStr "Error"]>
                          (<["message" := VStr "boom"]>
                             {[ "stack" := VStr "Error: boom" ]}))))
  ∧ (∃ r, V1.facade LError (setProcess (VStr "index.js") local_dev_logger)
            request_ns (VStr "failed") (VError 7 "Error" "boom" "Error: boom" None)
          = inr r
          ∧ em_field r "metadata" = Some (VError 7 "Error" "boom" "Error: boom" None))
  ∧ (∃ r, V1.facade LWarn (setProcess (VStr "index.js") prod_logger) request_ns
            (VStr "hello") (VObj {[ "service" := VStr "other" ]}) = inr r
          ∧ em_field r "service" = None
          ∧ em_field r "metadata" = Some (VObj {[ "service" := VStr "other" ]}))
  ∧ (∃ r, V3.facade LInfo (setProcess VUndefined prod_logger) request_ns
            (VStr "hello") (VObj {[ "service" := VStr "other" ]}) = inr r
          ∧ em_field r "service" = None).
Proof.
  assert (Hdev : V1.constructor
                   (<["service" := VStr "billing"]>
                      {[ "environment" := VStr V1.LOCAL_DEV_ENVIRONMENT ]})
                   VUndefined [] []
                 = ([Console None], inr local_dev_logger))
    by (by rewrite V1_constructor_valid).
  split; [|split; [|split]].
  - destruct (record_keeps_base prod_metadata VUndefined [] [] [Console None]
                prod_logger (VStr "index.js") request_ns LError (VStr "failed")
                (VError 7 "Error" "boom" "Error: boom" None)
                prod_logger_constructed)
      as ((r & Hr & _ & Hs & He & Hfs & _ & _ & _ & Hm & _) & _).
    exists r. split; [exact Hr|]. split; [exact Hs|]. split; [exact He|].
    split; [exact Hfs|]. exact (Hm eq_refl eq_refl eq_refl).
  - destruct (record_keeps_base _ VUndefined [] [] [Console None]
                local_dev_logger (VStr "index.js") request_ns LError (VStr "failed")
                (VError 7 "Error" "boom" "Error: boom" None) Hdev)
      as ((r & Hr & _ & _ & _ & _ & _ & _ & Hm & _) & _).
    exists r. split; [exact Hr|]. exact (Hm eq_refl eq_refl eq_refl).
  - destruct (record_keeps_base prod_metadata VUndefined [] [] [Console None]
                prod_logger (VStr "index.js") request_ns LWarn (VStr "hello")
                (VObj {[ "service" := VStr "other" ]}) prod_logger_constructed)
      as ((r & Hr & _ & _ & _ & Hfs & _ & Hm & _) & _).
    exists r. split; [exact Hr|]. split; [exact Hfs|].
    apply Hm; [reflexivity | discriminate].
  - destruct (record_keeps_base prod_metadata VUndefined [] [] [Console None]
                prod_logger VUndefined request_ns LInfo (VStr "hello")
                (VObj {[ "service" := VStr "other" ]}) prod_logger_constructed)
      as (_ & _ & (r & Hr & Hs & _)).
    exists r. split; [exact Hr | exact Hs].
Defined.

(** The record as the sinks receive it: the [service] and the
    [environment] of the configuration survive the merge with the fields
    of the call. *)
Lemma V1_delivered_keeps_base metadata options customTransports created created'
    this0 name ns level message extra r :
  V1.constructor metadata options customTransports created = (created', inr this0) →
  V1.facade level (setProcess name this0) ns message extra = inr r →
  delivered r !! "service" = Some (field metadata "service")
  ∧ delivered r !! "environment" = Some (field metadata "environment").
Proof.
  intros Hc Hr.
  destruct (V1_doLog_total_fields metadata options customTransports created created'
              this0 name ns level message extra Hc)
    as (r' & Hr' & Hs & He & Hfs & Hfe).
  rewrite Hr in Hr'. injection Hr' as <-.
  by rewrite !delivered_base.
Qed.

(** At the severity [error] the metadata is the serialised form of the
    extra, which differs from an error-shaped extra. *)
Lemma V1_error_metadata_serialised :
  ∃ r, V1.facade LError (setProcess (VStr "index.js") prod_logger) ns_initial
         (VStr "failed") (VError 7 "Error" "boom" "Error: boom" None) = inr r
       ∧ em_field r "metadata"
         = Some (serializeError (VError 7 "Error" "boom" "Error: boom" None))
       ∧ em_field r "metadata" ≠ Some (VError 7 "Error" "boom" "Error: boom" None).
Proof.
  eexists. split; [reflexivity|]. split; [by vm_compute|]. by vm_compute.
Qed.

(** In versions 2 and 3 the extra is copied into the top level of the
    record, so there the fields of the call do carry a [service] key the
    extra brings. *)
Lemma V2_extra_reaches_top_level :
  ∃ r, V2.facade LInfo prod_logger ns_initial (VStr "hello")
         (VObj {[ "service" := VStr "other" ]}) = inr r
       ∧ em_field r "service" = Some (VStr "other").
Proof. eexists. split; [reflexivity|]. by vm_compute. Qed.

End records.

(** * Flows *)

Section flows.

Variable bound : nat → option nat.
Variable this : Logger.

Implicit Types (ns : Namespace) (out : list (nat * Emission)).
Implicit Types (schedule : list (nat * flow_op)).

Lemma deref_update_eq a x (h : gmap nat obj) c o :
  deref {| ns_active := a; ns_context := x; ns_heap := <[c := o]> h |} c = o.
Proof. unfold deref. simpl. by rewrite lookup_insert_eq. Qed.

Lemma deref_update_ne a x (h : gmap nat obj) c c' o :
  c' ≠ c →
  deref {| ns_active := a; ns_context := x; ns_heap := <[c' := o]> h |} c
  = default ∅ (h !! c).
Proof. intros H. unfold deref. simpl. by rewrite lookup_insert_ne. Qed.

Lemma getLogId_enter c ns :
  getLogId (enter (Some c) ns) = field (deref ns c) "logId".
Proof. reflexivity. Qed.

Lemma getUserId_enter c ns :
  getUserId (enter (Some c) ns) = field (deref ns c) "userId".
Proof. reflexivity. Qed.

Lemma run_step_bound f c op ns out :
  bound f = Some c →
  run_step bound this (ns, out) (f, op) = bound_step this f c op ns out.
Proof.
  intros Hb. unfold run_step, exec. rewrite Hb.
  destruct op as [v|v|level message opts]; simpl.
  - by rewrite app_nil_r.
  - by rewrite app_nil_r.
  - by destruct (V1.facade level this _ message opts).
Qed.

Lemma V1_facade_reads level ns1 ns2 message opts :
  getLogId ns1 = getLogId ns2 →
  getUserId ns1 = getUserId ns2 →
  V1.facade level this ns1 message opts = V1.facade level this ns2 message opts.
Proof.
  intros Hl Hu. rewrite !V1_facade_doLog. unfold V1.doLog.
  by rewrite Hl, Hu.
Qed.

Lemma bound_step_agree f c op ns1 ns2 out1 out2 :
  deref ns1 c = deref ns2 c →
  deref (bound_step this f c op ns1 out1).1 c = deref (bound_step this f c op ns2 out2).1 c
  ∧ ∃ es, (bound_step this f c op ns1 out1).2 = out1 ++ (pair f <$> es)
          ∧ (bound_step this f c op ns2 out2).2 = out2 ++ (pair f <$> es).
Proof.
  intros Hd. destruct op as [v|v|level message opts]; simpl.
  - split; [|exists []; simpl; by rewrite !app_nil_r].
    rewrite !deref_update_eq. by rewrite Hd.
  - split; [|exists []; simpl; by rewrite !app_nil_r].
    rewrite !deref_update_eq. by rewrite Hd.
  - split; [done|].
    rewrite (V1_facade_reads level (enter (Some c) ns1) (enter (Some c) ns2)).
    + destruct (V1.facade level this _ message opts) as [err|e];
        [exists [] | exists [e]]; done.
    + by rewrite !getLogId_enter, Hd.
    + by rewrite !getUserId_enter, Hd.
Qed.

Lemma bound_step_frame g cg c op ns out :
  cg ≠ c →
  deref (bound_step this g cg op ns out).1 c = deref ns c
  ∧ ∃ es, (bound_step this g cg op ns out).2 = out ++ (pair g <$> es).
Proof.
  intros Hne. destruct op as [v|v|level message opts]; simpl.
  - split; [|exists []; simpl; by rewrite app_nil_r].
    by rewrite deref_update_ne.
  - split; [|exists []; simpl; by rewrite app_nil_r].
    by rewrite deref_update_ne.
  - split; [done|].
    destruct (V1.facade level this _ message opts) as [err|e];
      [exists [] | exists [e]]; done.
Qed.

Lemma filter_own_records (f : nat) (es : list Emission) :
  filter (λ r, r.1 = f) (pair f <$> es) = pair f <$> es.
Proof.
  induction es as [|e es IH]; [done|].
  rewrite fmap_cons, filter_cons_True by done. by rewrite IH.
Qed.

Lemma filter_other_records (f g : nat) (es : list Emission) :
  g ≠ f → filter (λ r, r.1 = f) (pair g <$> es) = [].
Proof.
  intros Hne. induction es as [|e es IH]; [done|].
  rewrite fmap_cons. by rewrite filter_cons_False.
Qed.

Lemma shown_logId_filter (f : nat) out :
  shown_logId f (filter (λ r, r.1 = f) out) = shown_logId f out.
Proof.
  unfold shown_logId. f_equal.
  induction out as [|r out IH]; [done|].
  destruct (decide (r.1 = f)) as [H|H].
  - rewrite !filter_cons_True by done. by rewrite IH.
  - by rewrite !filter_cons_False.
Qed.

(** The invariant behind isolation: the interleaved run and the run of
    flow [f] alone agree on the context of [f] and on the records of
    [f], segment after segment. *)
Lemma run_agree f c schedule ns1 ns2 out1 out2 :
  bound f = Some c →
  Forall (λ s, s.1 ≠ f → ∃ cg, bound s.1 = Some cg ∧ cg ≠ c) schedule →
  deref ns1 c = deref ns2 c →
  filter (λ r, r.1 = f) out1 = out2 →
  let st1 := foldl (run_step bound this) (ns1, out1) schedule in
  let st2 := foldl (run_step bound this) (ns2, out2) (own f schedule) in
  deref st1.1 c = deref st2.1 c ∧ filter (λ r, r.1 = f) st1.2 = st2.2.
Proof.
  intros Hb Hall. revert ns1 ns2 out1 out2.
  induction Hall as [|[g op] schedule Hg Hall IH]; intros ns1 ns2 out1 out2 Hd Ho.
  { by split. }
  simpl in Hg. unfold own. destruct (decide (g = f)) as [->|Hne].
  - rewrite filter_cons_True by done. cbn [foldl].
    rewrite !run_step_bound with (c := c) by done.
    destruct (bound_step_agree f c op ns1 ns2 out1 out2 Hd)
      as (Hd' & es & Ho1 & Ho2).
    destruct (bound_step this f c op ns1 out1) as [ns1' out1'].
    destruct (bound_step this f c op ns2 out2) as [ns2' out2'].
    simpl in *. subst out1' out2'. apply IH; [done|].
    by rewrite filter_app, Ho, filter_own_records.
  - rewrite filter_cons_False by done. cbn [foldl].
    destruct (Hg Hne) as (cg & Hbg & Hcg).
    rewrite run_step_bound with (c := cg) by done.
    destruct (bound_step_frame g cg c op ns1 out1 Hcg) as (Hd' & es & Ho1).
    destruct (bound_step this g cg op ns1 out1) as [ns1' out1'].
    simpl in *. subst out1'. apply IH; [congruence|].
    by rewrite filter_app, Ho, filter_other_records, app_nil_r.
Qed.

(** Flows bound to contexts of their own do not interfere: in any
    schedule, the records of flow [f] are those of [f] running alone. *)
Lemma bound_flows_do_not_interfere f c schedule ns :
  bound f = Some c →
  Forall (λ s, s.1 ≠ f → ∃ cg, bound s.1 = Some cg ∧ cg ≠ c) schedule →
  filter (λ r, r.1 = f) (run bound this schedule ns).2
  = (run bound this (own f schedule) ns).2.
Proof.
  intros Hb Hall. unfold run.
  by destruct (run_agree f c schedule ns ns [] [] Hb Hall eq_refl eq_refl).
Qed.

Lemma Interleave_Forall {A} (P : A → Prop) (l1 l2 l : list A) :
  Interleave l1 l2 l → Forall P l1 → Forall P l2 → Forall P l.
Proof.
  induction 1 as [|x l1 l2 l _ IH|x l1 l2 l _ IH]; intros H1 H2; [done| |].
  - inversion H1; subst. constructor; auto.
  - inversion H2; subst. constructor; auto.
Qed.

Lemma Interleave_own f (l1 l2 l : list (nat * flow_op)) :
  Interleave l1 l2 l →
  Forall (λ s, s.1 = f) l1 → Forall (λ s, s.1 ≠ f) l2 → own f l = l1.
Proof.
  unfold own.
  induction 1 as [|x l1 l2 l _ IH|x l1 l2 l _ IH]; intros H1 H2; [done| |].
  - inversion H1; subst. rewrite filter_cons_True by done. f_equal. auto.
  - inversion H2; subst. rewrite filter_cons_False by done. auto.
Qed.

Lemma Interleave_sym {A} (l1 l2 l : list A) :
  Interleave l1 l2 l → Interleave l2 l1 l.
Proof. induction 1; by constructor. Qed.

(** A flow bound to a context, running alone: it sets its [logId] and
    then logs; the record shows that [logId]. *)
Lemma alone_set_then_log f c a level message opts ns :
  bound f = Some c →
  truthy (processName this) = true →
  truthy a = true →
  shown_logId f
    (run bound this [(f, CallSetLogId a); (f, CallLog level message opts)] ns).2
  = [Some a].
Proof.
  intros Hb Hp Ha. unfold run. cbn [foldl].
  rewrite run_step_bound with (c := c) by done. cbn [bound_step].
  rewrite run_step_bound with (c := c) by done. cbn [bound_step].
  match goal with
  | |- context [V1.facade level this ?nsx message opts] =>
      destruct (truthy_ids_injected level this nsx message opts Hp)
        as (r & -> & Hl & _);
      assert (Hget : getLogId nsx = a)
  end.
  { rewrite getLogId_enter, deref_update_eq. unfold field.
    by rewrite lookup_insert_eq. }
  rewrite Hget in Hl. unfold shown_logId. simpl.
  rewrite filter_cons_True by done. simpl. by rewrite (Hl Ha).
Qed.

(** C1, amended: two flows bound to contexts of their own.  Each sets
    its [logId] and then logs, a process name being set on the logger;
    however the four segments interleave, the record of each flow shows
    the [logId] that flow set, and the records of each flow, [userId]
    included, are those the flow gets when it runs alone. *)
Theorem bound_flows_keep_their_logId fa fb ca cb a b la ma oa lb mb ob schedule ns :
  bound fa = Some ca →
  bound fb = Some cb →
  fa ≠ fb →
  ca ≠ cb →
  truthy (processName this) = true →
  truthy a = true →
  truthy b = true →
  Interleave [(fa, CallSetLogId a); (fa, CallLog la ma oa)]
             [(fb, CallSetLogId b); (fb, CallLog lb mb ob)] schedule →
  shown_logId fa (run bound this schedule ns).2 = [Some a]
  ∧ shown_logId fb (run bound this schedule ns).2 = [Some b]
  ∧ filter (λ r, r.1 = fa) (run bound this schedule ns).2
    = (run bound this [(fa, CallSetLogId a); (fa, CallLog la ma oa)] ns).2
  ∧ filter (λ r, r.1 = fb) (run bound this schedule ns).2
    = (run bound this [(fb, CallSetLogId b); (fb, CallLog lb mb ob)] ns).2.
Proof.
  intros Hba Hbb Hf Hc Hp Ha Hb Hi.
  assert (Hall : ∀ f c, (f = fa ∧ c = ca) ∨ (f = fb ∧ c = cb) →
            Forall (λ s, s.1 ≠ f → ∃ cg, bound s.1 = Some cg ∧ cg ≠ c) schedule).
  { intros f c Hfc. apply (Interleave_Forall _ _ _ _ Hi);
      repeat constructor; simpl; intros Hne;
      destruct Hfc as [[-> ->]|[-> ->]]; try done; eauto. }
  assert (Hown_a : filter (λ r, r.1 = fa) (run bound this schedule ns).2
            = (run bound this [(fa, CallSetLogId a); (fa, CallLog la ma oa)] ns).2).
  { rewrite (bound_flows_do_not_interfere fa ca) by auto.
    by rewrite (Interleave_own fa _ _ _ Hi) by (repeat constructor; done). }
  assert (Hown_b : filter (λ r, r.1 = fb) (run bound this schedule ns).2
            = (run bound this [(fb, CallSetLogId b); (fb, CallLog lb mb ob)] ns).2).
  { rewrite (bound_flows_do_not_interfere fb cb) by auto.
    by rewrite (Interleave_own fb _ _ _ (Interleave_sym _ _ _ Hi))
      by (repeat constructor; done). }
  repeat split; try done.
  - rewrite <- shown_logId_filter, Hown_a.
    by apply alone_set_then_log with (c := ca).
  - rewrite <- shown_logId_filter, Hown_b.
    by apply alone_set_then_log with (c := cb).
Qed.

End flows.

(** C1 as stated fails for flows that did not pass through the
    middleware hook: the first [setLogId] installs one context on the
    shared namespace, the second writes into the same context, and both
    records show the [logId] set last. *)
Lemma unbound_flows_share_logId :
  Interleave flow_A flow_B racing_schedule
  ∧ shown_logId 0 (run unbound ready_logger racing_schedule ns_initial).2
    = [Some (VStr "b1")]
  ∧ shown_logId 1 (run unbound ready_logger racing_schedule ns_initial).2
    = [Some (VStr "b1")].
Proof.
  split; [repeat constructor|]. split; by vm_compute.
Qed.

Lemma bound_flows_keep_their_logId_witness :
  shown_logId 0 (run each_its_own ready_logger racing_schedule ns_initial).2
    = [Some (VStr "a1")]
  ∧ shown_logId 1 (run each_its_own ready_logger racing_schedule ns_initial).2
    = [Some (VStr "b1")].
Proof.
  destruct (bound_flows_keep_their_logId each_its_own ready_logger 0 1 0 1
              (VStr "a1") (VStr "b1") LInfo (VStr "from A") VUndefined
              LInfo (VStr "from B") VUndefined racing_schedule ns_initial)
    as (Ha & Hb & _); try reflexivity; try discriminate.
  - repeat constructor.
  - split; [exact Ha | exact Hb].
Defined.

(** * More on construction *)

Section more_construction.

Implicit Types (metadata : obj) (options : value).
Implicit Types (customTransports created : list Transport).

Lemma truthy_field_present metadata k :
  truthy (field metadata k) = true → metadata !! k = Some (field metadata k).
Proof.
  unfold field. destruct (metadata !! k) as [v|]; [done|]. simpl. discriminate.
Qed.

Lemma constructor_rejects metadata options customTransports created :
  truthy (field metadata "service") && truthy (field metadata "environment") = false →
  V1.constructor metadata options customTransports created
    = (created, inl ConfigurationError)
  ∧ V2.constructor metadata options customTransports created
    = (created, inl ConfigurationError)
  ∧ V3.constructor metadata options customTransports created
    = (created, inl ConfigurationError).
Proof.
  intros H. apply andb_false_iff in H.
  unfold V1.constructor, V2.constructor, V3.constructor, mbind, Ctor_bind.
  by rewrite (validateMetadata_falsy _ _ H).
Qed.

(** X1: the constructor builds a logger exactly when [service] and
    [environment] are both truthy.  A falsy value -- the empty string,
    [null], [0], [false] -- is rejected like a missing one, with the
    same error and with no transport created.  The three versions agree. *)
Theorem constructor_succeeds_iff metadata options customTransports created :
  let valid :=
    truthy (field metadata "service") && truthy (field metadata "environment") in
  let outcome (result : list Transport * (value + Logger)) :=
    if valid then ∃ this, result.2 = inr this
    else result = (created, inl ConfigurationError) in
  outcome (V1.constructor metadata options customTransports created)
  ∧ outcome (V2.constructor metadata options customTransports created)
  ∧ outcome (V3.constructor metadata options customTransports created).
Proof.
  simpl.
  destruct (truthy (field metadata "service")
            && truthy (field metadata "environment")) eqn:Hv.
  - apply andb_true_iff in Hv as [Hs He].
    rewrite V1_constructor_valid, V2_constructor_valid, V3_constructor_valid
      by done.
    simpl. repeat split; by eexists.
  - by apply constructor_rejects.
Qed.

Lemma constructed_valid metadata options customTransports created created' this :
  V1.constructor metadata options customTransports created = (created', inr this)
  ∨ V2.constructor metadata options customTransports created = (created', inr this)
  ∨ V3.constructor metadata options customTransports created = (created', inr this) →
  truthy (field metadata "service") = true
  ∧ truthy (field metadata "environment") = true.
Proof.
  intros H. apply andb_true_iff.
  destruct (truthy (field metadata "service")
            && truthy (field metadata "environment")) eqn:Hv; [done|].
  destruct (constructor_rejects metadata options customTransports created Hv)
    as (H1 & H2 & H3).
  rewrite H1, H2, H3 in H. by destruct H as [?|[?|?]].
Qed.

Lemma buildMetadataConfig_id metadata :
  truthy (field metadata "service") = true →
  truthy (field metadata "environment") = true →
  V1.buildMetadataConfig metadata = metadata.
Proof.
  intros Hs He. apply truthy_field_present in Hs, He.
  apply map_eq. intros k.
  unfold V1.buildMetadataConfig, Object_assign. simpl.
  rewrite !lookup_union, lookup_empty, (right_id_L None (∪)).
  destruct (decide (k = "service")) as [->|Hks].
  { rewrite lookup_insert_eq, Hs. done. }
  rewrite lookup_insert_ne by done.
  destruct (decide (k = "environment")) as [->|Hke].
  { rewrite lookup_singleton_eq, He. done. }
  rewrite lookup_singleton_ne by done. by rewrite (left_id_L None (∪)).
Qed.

(** X2: in versions 1 and 2 the static metadata of the backend logger
    is the metadata the constructor was given, key for key: whatever
    else the caller put beside [service] and [environment] goes into
    every record, and nothing is added. *)
Theorem defaultMeta_is_metadata metadata options customTransports created
    created' this :
  V1.constructor metadata options customTransports created = (created', inr this)
  ∨ V2.constructor metadata options customTransports created = (created', inr this) →
  defaultMeta (logger this) = metadata.
Proof.
  intros H.
  destruct (constructed_valid metadata options customTransports created created'
              this) as [Hs He]; [tauto|].
  destruct H as [H|H].
  - rewrite V1_constructor_valid in H by done. simpl in H.
    injection H as _ <-. simpl. by apply buildMetadataConfig_id.
  - rewrite V2_constructor_valid in H by done. simpl in H.
    injection H as _ <-. simpl. by apply buildMetadataConfig_id.
Qed.

Lemma defaultMeta_is_metadata_witness :
  ∃ this,
    V1.constructor (<["region" := VStr "eu"]> prod_metadata) VUndefined [] []
      = ([Console None], inr this)
    ∧ defaultMeta (logger this) = <["region" := VStr "eu"]> prod_metadata.
Proof.
  exists {| logger :=
              {| w_level := VStr "info"; exitOnError := false;
                 w_format := FORMAT_JSON;
                 defaultMeta :=
                   V1.buildMetadataConfig (<["region" := VStr "eu"]> prod_metadata);
                 transports := [Console None] |};
            processName := VUndefined; classProcessName := VUndefined |}.
  assert (Hc : V1.constructor (<["region" := VStr "eu"]> prod_metadata)
                 VUndefined [] []
               = ([Console None],
                  inr {| logger :=
                           {| w_level := VStr "info"; exitOnError := false;
                              w_format := FORMAT_JSON;
                              defaultMeta :=
                                V1.buildMetadataConfig
                                  (<["region" := VStr "eu"]> prod_metadata);
                              transports := [Console None] |};
                         processName := VUndefined;
                         classProcessName := VUndefined |})).
  { by rewrite V1_constructor_valid. }
  split; [exact Hc|].
  exact (defaultMeta_is_metadata _ _ _ _ _ _ (or_introl Hc)).
Defined.

(** X3: version 3 renames the service.  The static metadata of its
    logger has [service] set to the service and the environment joined
    by a dash, every other key being as given; and when an API key is
    configured the path of the HTTP transport carries that joined name. *)
Theorem V3_service_is_joined metadata options customTransports created created'
    this :
  V3.constructor metadata options customTransports created = (created', inr this) →
  let joined :=
    to_string (field metadata "service") +:+ "-"
      +:+ to_string (field metadata "environment") in
  defaultMeta (logger this) !! "service" = Some (VStr joined)
  ∧ (∀ k, k ≠ "service" → defaultMeta (logger this) !! k = metadata !! k)
  ∧ (truthy options && truthy (prop options "datadog_api_key") = true →
     Http "http-intake.logs.datadoghq.com"
       ("/v1/input/" +:+ to_string (prop options "datadog_api_key")
          +:+ "?ddsource=nodejs&service=" +:+ joined) true
     ∈ transports (logger this)).
Proof.
  intros H.
  destruct (constructed_valid metadata options customTransports created created'
              this) as [Hs He]; [tauto|].
  rewrite V3_constructor_valid in H by done. cbv zeta in H.
  injection H as _ <-. cbv zeta. simpl.
  assert (Hjoined : V3.buildMetadataConfig metadata !! "service"
            = Some (VStr (to_string (field metadata "service") +:+ "-"
                            +:+ to_string (field metadata "environment")))).
  { unfold V3.buildMetadataConfig, Object_assign. simpl.
    apply lookup_union_Some_l. by rewrite lookup_singleton_eq. }
  split; [exact Hjoined|]. split.
  - intros k Hk. unfold V3.buildMetadataConfig, Object_assign. simpl.
    rewrite !lookup_union, lookup_empty, lookup_singleton_ne by done.
    by rewrite (left_id_L None (∪)), (right_id_L None (∪)).
  - intros ->.
    assert (Hf : field (V3.buildMetadataConfig metadata) "service"
              = VStr (to_string (field metadata "service") +:+ "-"
                        +:+ to_string (field metadata "environment")))
      by (unfold field at 1; by rewrite Hjoined).
    rewrite Hf. simpl. apply list_elem_of_In. simpl. auto.
Qed.

Lemma V3_service_is_joined_witness :
  ∃ this,
    V3.constructor prod_metadata prod_options [] []
      = ([Console (Some FORMAT_SIMPLE);
          Http "http-intake.logs.datadoghq.com"
            "/v1/input/k3y?ddsource=nodejs&service=billing-prod" true],
         inr this)
    ∧ defaultMeta (logger this) !! "service" = Some (VStr "billing-prod")
    ∧ Http "http-intake.logs.datadoghq.com"
        "/v1/input/k3y?ddsource=nodejs&service=billing-prod" true
      ∈ transports (logger this).
Proof.
  assert (Hc : ∃ this,
            V3.constructor prod_metadata prod_options [] []
            = ([Console (Some FORMAT_SIMPLE);
                Http "http-intake.logs.datadoghq.com"
                  "/v1/input/k3y?ddsource=nodejs&service=billing-prod" true],
               inr this)).
  { rewrite V3_constructor_valid by reflexivity. by eexists. }
  destruct Hc as [this Hc]. exists this. split; [exact Hc|].
  destruct (V3_service_is_joined _ _ _ _ _ _ Hc) as (Hs & _ & Hp).
  split; [exact Hs|]. exact (Hp eq_refl).
Defined.

(** X4: the minimum level of the backend logger.  Version 1 takes
    [options.level], falling back to ["info"] only when the options or
    the level are [undefined] or [null], so that a falsy level such as
    the empty string is kept; versions 2 and 3 set ["info"] whatever the
    options say. *)
Theorem level_option metadata options customTransports created :
  truthy (field metadata "service") = true →
  truthy (field metadata "environment") = true →
  (∃ this,
     (V1.constructor metadata options customTransports created).2 = inr this
     ∧ w_level (logger this)
       = match prop options "level" with
         | VUndefined | VNull => VStr "info"
         | level => level
         end)
  ∧ (∃ this,
       (V2.constructor metadata options customTransports created).2 = inr this
       ∧ w_level (logger this) = VStr "info")
  ∧ (∃ this,
       (V3.constructor metadata options customTransports created).2 = inr this
       ∧ w_level (logger this) = VStr "info").
Proof.
  intros Hs He.
  rewrite V1_constructor_valid, V2_constructor_valid, V3_constructor_valid by done.
  simpl. repeat split; eexists; (split; [reflexivity|]); simpl; try done.
  unfold js_nullish. by destruct (prop options "level").
Qed.

Lemma level_option_witness :
  (∃ this,
     (V1.constructor prod_metadata (VObj {[ "level" := VStr "" ]}) [] []).2
       = inr this
     ∧ w_level (logger this) = VStr "")
  ∧ (∃ this,
       (V2.constructor prod_metadata (VObj {[ "level" := VStr "" ]}) [] []).2
         = inr this
       ∧ w_level (logger this) = VStr "info")
  ∧ (∃ this,
       (V3.constructor prod_metadata (VObj {[ "level" := VStr "" ]}) [] []).2
         = inr this
       ∧ w_level (logger this) = VStr "info").
Proof.
  destruct (level_option prod_metadata (VObj {[ "level" := VStr "" ]}) [] []
              eq_refl eq_refl) as ((this & Hc & Hl) & Hrest).
  split; [|exact Hrest].
  exists this. split; [exact Hc|]. rewrite Hl. reflexivity.
Defined.

(** X5: in version 1 the environment that selects the dev format and
    the environment that switches the serialisation of errors off are
    different strings.  A logger given the dev format serialises its
    error payloads, and a logger that hands error payloads on untouched
    formats as JSON. *)
Theorem dev_format_and_marker_disjoint metadata options customTransports created
    created' this :
  V1.constructor metadata options customTransports created = (created', inr this) →
  (w_format (logger this) = DevFormat ↔ metadata !! "environment" = Some (VStr "dev"))
  ∧ (w_format (logger this) = DevFormat →
     ∀ opts, V1.parseMetadata this opts LError = serializeError opts)
  ∧ (metadata !! "environment" = Some (VStr V1.LOCAL_DEV_ENVIRONMENT) →
     w_format (logger this) = FORMAT_JSON
     ∧ ∀ opts level, V1.parseMetadata this opts level = opts).
Proof.
  intros H.
  destruct (constructed_valid metadata options customTransports created created'
              this) as [Hs He]; [tauto|].
  pose proof (truthy_field_present _ _ He) as Hpresent.
  rewrite V1_constructor_valid in H by done. cbv zeta in H.
  injection H as _ <-. unfold V1.parseMetadata. simpl.
  assert (Hf : field (V1.buildMetadataConfig metadata) "environment"
            = field metadata "environment")
    by (unfold field at 1; by rewrite V1_buildMetadataConfig_environment).
  rewrite !Hf, Hpresent. clear Hf Hpresent Hs He.
  destruct (field metadata "environment") as [| |b|n|env|o|i nm ms st c].
  1-4, 6-7: by (repeat split; intros; simplify_eq).
  simpl. destruct (String.eqb_spec env "dev") as [->|Hdev].
  - repeat split; intros; simplify_eq; done.
  - repeat split; intros; simplify_eq; try done.
    simpl. by rewrite ?orb_true_r.
Qed.

Lemma dev_format_and_marker_disjoint_witness :
  ∃ this,
    V1.constructor tests_metadata tests_options [] [] = ([Console None], inr this)
    ∧ w_format (logger this) = DevFormat
    ∧ ∀ opts, V1.parseMetadata this opts LError = serializeError opts.
Proof.
  assert (Hc : ∃ this,
            V1.constructor tests_metadata tests_options [] []
            = ([Console None], inr this)).
  { rewrite V1_constructor_valid by reflexivity. by eexists. }
  destruct Hc as [this Hc]. exists this. split; [exact Hc|].
  destruct (dev_format_and_marker_disjoint _ _ _ _ _ _ Hc) as (Hf & Hs & _).
  assert (Hdev : w_format (logger this) = DevFormat)
    by (apply Hf; reflexivity).
  split; [exact Hdev | exact (Hs Hdev)].
Defined.

(** X6: versions 1 and 2 outside the environment [test].  The
    constructor creates one transport, a console transport with no format
    of its own, and the set of the logger is that transport followed by
    the caller's, unfiltered and in the order given -- whatever the
    options say. *)
Theorem console_unless_test metadata options customTransports created :
  truthy (field metadata "service") = true →
  truthy (field metadata "environment") = true →
  is_str (field metadata "environment") "test" = false →
  (∃ this,
     V1.constructor metadata options customTransports created
       = (created ++ [Console None], inr this)
     ∧ transports (logger this) = Console None :: customTransports)
  ∧ (∃ this,
       V2.constructor metadata options customTransports created
         = (created ++ [Console None], inr this)
       ∧ transports (logger this) = Console None :: customTransports).
Proof.
  intros Hs He Ht.
  rewrite V1_constructor_valid, V2_constructor_valid by done.
  rewrite Ht. simpl. split; eexists; by split.
Qed.

Lemma console_unless_test_witness :
  (∃ this,
     V1.constructor prod_metadata tests_options [File (VStr "own.log")] []
       = ([] ++ [Console None], inr this)
     ∧ transports (logger this) = [Console None; File (VStr "own.log")])
  ∧ (∃ this,
       V2.constructor prod_metadata tests_options [File (VStr "own.log")] []
         = ([] ++ [Console None], inr this)
       ∧ transports (logger this) = [Console None; File (VStr "own.log")]).
Proof.
  apply (console_unless_test prod_metadata tests_options
           [File (VStr "own.log")] []); reflexivity.
Defined.

(** X7: version 3 selects by the options alone.  Among the transports
    its constructor creates there is always the console, never a null
    stream, a file transport exactly when [options.filename] is truthy
    and an HTTP transport exactly when [options.datadog_api_key] is
    truthy, at most one of each, in every environment; the caller's
    transports follow them. *)
Theorem V3_selects_by_options metadata options customTransports created :
  truthy (field metadata "service") = true →
  truthy (field metadata "environment") = true →
  ∃ this made,
    V3.constructor metadata options customTransports created
      = (created ++ made, inr this)
    ∧ transports (logger this) = made ++ customTransports
    ∧ length (filter (λ t, is_console t = true) made) = 1
    ∧ existsb is_null made = false
    ∧ existsb is_file made = truthy options && truthy (prop options "filename")
    ∧ existsb is_remote made
      = truthy options && truthy (prop options "datadog_api_key")
    ∧ length (filter (λ t, is_file t = true) made) ≤ 1
    ∧ length (filter (λ t, is_remote t = true) made) ≤ 1.
Proof.
  intros Hs He. rewrite V3_constructor_valid by done. cbv zeta.
  eexists _, _. split; [reflexivity|]. split; [reflexivity|].
  destruct (truthy options && truthy (prop options "datadog_api_key"));
    destruct (truthy options && truthy (prop options "filename"));
    vm_compute; repeat split; lia.
Qed.

Lemma V3_selects_by_options_witness :
  ∃ this made,
    V3.constructor
      (<["service" := VStr "billing"]> {[ "environment" := VStr "test" ]})
      tests_options [] []
      = ([] ++ made, inr this)
    ∧ transports (logger this) = made ++ []
    ∧ existsb is_file made = true
    ∧ existsb is_remote made = false.
Proof.
  destruct (V3_selects_by_options
              (<["service" := VStr "billing"]> {[ "environment" := VStr "test" ]})
              tests_options [] [])
    as (this & made & Hc & Ht & _ & _ & Hf & Hr & _);
    [reflexivity | reflexivity |].
  exists this, made. split; [exact Hc|]. split; [exact Ht|].
  split; [rewrite Hf; reflexivity | rewrite Hr; reflexivity].
Defined.

End more_construction.

(** * More on the context *)

Section more_context.

Implicit Types (ns : Namespace) (v : value).

Lemma createContext_active ns : is_Some (ns_active (createContext ns)).
Proof.
  unfold createContext. destruct (ns_active ns) eqn:H; simpl; [|by eauto].
  rewrite H. eauto.
Qed.

Lemma createContext_keeps ns c : ns_active ns = Some c → createContext ns = ns.
Proof. intros H. unfold createContext. by rewrite H. Qed.

Lemma fresh_context_empty ns :
  ns_active ns = None →
  ∃ c, createContext ns
       = {| ns_active := Some c; ns_context := Some c;
            ns_heap := <[c := ∅]> (ns_heap ns) |}
       ∧ ns_heap ns !! c = None.
Proof.
  intros H. unfold createContext. rewrite H. simpl.
  exists (fresh (dom (ns_heap ns))). split; [done|].
  apply not_elem_of_dom. apply is_fresh.
Qed.

Lemma get_set_active k k' v ns c :
  ns_active ns = Some c →
  httpContext_get k' (httpContext_set k v ns)
  = if decide (k = k') then v else httpContext_get k' ns.
Proof.
  intros Hc. unfold httpContext_get, httpContext_set. rewrite Hc. simpl.
  unfold deref at 1. simpl. rewrite lookup_insert_eq. simpl.
  unfold field. rewrite lookup_insert. by destruct (decide (k = k')).
Qed.

Lemma get_after_set k v ns :
  httpContext_get k (httpContext_set k v (createContext ns)) = v.
Proof.
  destruct (createContext_active ns) as [c Hc].
  rewrite (get_set_active k k v _ c Hc). by rewrite decide_True.
Qed.

Lemma get_createContext k ns :
  httpContext_get k (createContext ns) = httpContext_get k ns.
Proof.
  destruct (ns_active ns) as [c|] eqn:H.
  - by rewrite (createContext_keeps ns c).
  - destruct (fresh_context_empty ns H) as (c & -> & _).
    unfold httpContext_get. rewrite H. simpl.
    unfold deref. simpl. by rewrite lookup_insert_eq.
Qed.

Lemma get_after_set_other k k' v ns :
  k ≠ k' →
  httpContext_get k' (httpContext_set k v (createContext ns))
  = httpContext_get k' ns.
Proof.
  intros Hk. rewrite <- (get_createContext k' ns).
  destruct (createContext_active ns) as [c Hc].
  rewrite (get_set_active k k' v _ c Hc). by rewrite decide_False.
Qed.

(** X8: what is set is what is read, in every state of the namespace,
    also when no context is active: [setLogId] and [setUserId] install a
    context first, so the write is never dropped, and a later write
    replaces an earlier one. *)
Theorem set_then_get ns v w :
  getLogId (setLogId v ns) = v
  ∧ getUserId (setUserId v ns) = v
  ∧ getLogId (setLogId w (setLogId v ns)) = w
  ∧ getUserId (setUserId w (setUserId v ns)) = w.
Proof.
  unfold getLogId, setLogId, getUserId, setUserId.
  by rewrite !get_after_set.
Qed.

(** X9: the two correlation values do not disturb each other: setting
    the [logId] leaves the [userId] as it was and setting the [userId]
    leaves the [logId] as it was, so the two can be set in either order. *)
Theorem logId_and_userId_independent ns v w :
  getUserId (setLogId v ns) = getUserId ns
  ∧ getLogId (setUserId v ns) = getLogId ns
  ∧ getLogId (setUserId w (setLogId v ns)) = v
  ∧ getUserId (setUserId w (setLogId v ns)) = w
  ∧ getLogId (setLogId v (setUserId w ns)) = v
  ∧ getUserId (setLogId v (setUserId w ns)) = w.
Proof.
  unfold getLogId, setLogId, getUserId, setUserId.
  repeat split;
    repeat first [rewrite get_after_set | rewrite get_after_set_other by done];
    done.
Qed.

(** X10: [createContext] leaves a namespace with an active context
    alone, and otherwise adds one empty context and makes it the active
    one: after it a context is always active, calling it again changes
    nothing, the values read are those read before, and the contexts
    already in the store are untouched. *)
Theorem createContext_idempotent ns :
  is_Some (ns_active (createContext ns))
  ∧ createContext (createContext ns) = createContext ns
  ∧ (is_Some (ns_active ns) → createContext ns = ns)
  ∧ getLogId (createContext ns) = getLogId ns
  ∧ getUserId (createContext ns) = getUserId ns
  ∧ (∀ c, is_Some (ns_heap ns !! c) → deref (createContext ns) c = deref ns c).
Proof.
  destruct (createContext_active ns) as [c Hc].
  repeat split.
  - eauto.
  - by apply createContext_keeps with (c := c).
  - intros [c' Hc']. by apply createContext_keeps with (c := c').
  - apply get_createContext.
  - apply get_createContext.
  - intros c' [o Ho]. destruct (ns_active ns) as [a|] eqn:Ha.
    + by rewrite (createContext_keeps ns a).
    + destruct (fresh_context_empty ns Ha) as (n & -> & Hn).
      unfold deref. simpl. rewrite lookup_insert_ne; [done|]. congruence.
Qed.

End more_context.

(** * More on flows *)

Section more_flows.

Variable this : Logger.
Hypothesis ready : truthy (processName this) = true.

Implicit Types (ns : Namespace) (out : list (nat * Emission)).
Implicit Types (schedule : list (nat * flow_op)).

Lemma facade_logId_field level ns message opts :
  ∃ r, V1.facade level this ns message opts = inr r
       ∧ em_field r "logId"
         = if truthy (getLogId ns) then Some (getLogId ns) else None.
Proof.
  rewrite V1_facade_doLog.
  destruct (V1_doLog_ready this ns level message (default_opts opts) ready)
    as (meta & -> & _ & Hlog & _).
  eexists. split; [reflexivity|]. exact Hlog.
Qed.

Lemma run_step_unbound ns out f op :
  run_step unbound this (ns, out) (f, op)
  = ((exec this op ns).1, out ++ (pair f <$> (exec this op ns).2)).
Proof. unfold run_step, unbound. simpl. by destruct (exec this op ns). Qed.

Lemma logIds_app out1 out2 : logIds (out1 ++ out2) = logIds out1 ++ logIds out2.
Proof. unfold logIds. by rewrite fmap_app. Qed.

(** Outside the middleware a run shows the ids of the reference with
    one variable, from whatever state and whatever was emitted before. *)
Lemma unbound_run_ids schedule ns out :
  logIds (foldl (run_step unbound this) (ns, out) schedule).2
  = logIds out ++ global_ids (getLogId ns) (snd <$> schedule).
Proof.
  revert ns out. induction schedule as [|[f op] schedule IH]; intros ns out.
  { simpl. by rewrite app_nil_r. }
  cbn [foldl]. rewrite run_step_unbound, IH. rewrite fmap_cons. cbn [snd global_ids].
  destruct op as [v|v|level message opts]; cbn [exec fst snd global_ids].
  - rewrite fmap_nil, app_nil_r.
    unfold getLogId at 1, setLogId. by rewrite get_after_set.
  - rewrite fmap_nil, app_nil_r.
    unfold getLogId at 1, setUserId. by rewrite get_after_set_other.
  - destruct (facade_logId_field level ns message opts) as (r & -> & Hr).
    rewrite logIds_app, <- app_assoc. unfold logIds at 2. simpl. by rewrite Hr.
Qed.

(** X11: outside the middleware the correlation id is one variable of
    the whole process.  Whatever flows take part and however their
    segments are scheduled, the [logId] of each record is the one most
    recently set by any flow, or the one visible at the start: the ids
    shown are those of the reference [global_ids]. *)
Theorem unbound_flows_share_one_variable schedule ns :
  logIds (run unbound this schedule ns).2
  = global_ids (getLogId ns) (snd <$> schedule).
Proof. unfold run. by rewrite unbound_run_ids. Qed.

(** X12: [log] of [src/tests/index.js], run tick after tick without the
    middleware.  The three records of a tick carry the identifier that
    tick set, also when an earlier tick has left its own behind. *)
Theorem tests_ticks_carry_their_uuid uuid1 uuid2 ns :
  truthy uuid1 = true →
  truthy uuid2 = true →
  logIds (run unbound this
            ((pair 0 <$> tests_log uuid1) ++ (pair 1 <$> tests_log uuid2)) ns).2
  = [Some uuid1; Some uuid1; Some uuid1; Some uuid2; Some uuid2; Some uuid2].
Proof.
  intros H1 H2. unfold run. rewrite unbound_run_ids. simpl.
  by rewrite H1, H2.
Qed.

Lemma one_context_invariant schedule ns out :
  (ns_active ns = None ∧ ns_heap ns = ∅)
  ∨ (∃ c, ns_active ns = Some c ∧ dom (ns_heap ns) = {[c]}) →
  let ns' := (foldl (run_step unbound this) (ns, out) schedule).1 in
  (ns_active ns' = None ∧ ns_heap ns' = ∅)
  ∨ (∃ c, ns_active ns' = Some c ∧ dom (ns_heap ns') = {[c]}).
Proof.
  revert ns out. induction schedule as [|[f op] schedule IH]; intros ns out Hinv.
  { done. }
  cbn [foldl]. rewrite run_step_unbound. apply IH.
  assert (Hcc : ∃ c, ns_active (createContext ns) = Some c
                     ∧ dom (ns_heap (createContext ns)) = {[c]}).
  { destruct Hinv as [[Ha Hh]|(c & Ha & Hd)].
    - destruct (fresh_context_empty ns Ha) as (c & -> & _). exists c. simpl.
      split; [done|]. rewrite Hh, dom_insert_L, dom_empty_L.
      by rewrite (right_id_L ∅ (∪)).
    - exists c. by rewrite (createContext_keeps ns c). }
  assert (Hset : ∀ k v, ∃ c,
            ns_active (httpContext_set k v (createContext ns)) = Some c
            ∧ dom (ns_heap (httpContext_set k v (createContext ns))) = {[c]}).
  { intros k v. destruct Hcc as (c & Ha & Hd). exists c.
    unfold httpContext_set. rewrite Ha. simpl. split; [done|].
    rewrite dom_insert_L, Hd. by rewrite (idemp_L (∪)). }
  destruct op as [v|v|level message opts]; cbn [exec fst].
  - right. apply Hset.
  - right. apply Hset.
  - exact Hinv.
Qed.

(** X13: outside the middleware the namespace never holds more than
    one context.  Starting with none, whatever the schedule, either no
    context exists yet or exactly one does and it is the active one:
    the first [setLogId] or [setUserId] creates it and every later call,
    of whatever flow, finds it. *)
Theorem unbound_flows_one_context schedule :
  let ns' := (run unbound this schedule ns_initial).1 in
  size (ns_heap ns') ≤ 1
  ∧ (∀ c, is_Some (ns_heap ns' !! c) → ns_active ns' = Some c).
Proof.
  simpl. unfold run.
  destruct (one_context_invariant schedule ns_initial []) as [[Ha Hh]|(c & Ha & Hd)].
  { left. by split. }
  - rewrite Hh. split; [rewrite map_size_empty; lia|].
    intros c [o Ho]. by rewrite lookup_empty in Ho.
  - split.
    + rewrite <- size_dom, Hd, size_singleton. lia.
    + intros c' Hc'. apply elem_of_dom in Hc'. rewrite Hd in Hc'.
      apply elem_of_singleton in Hc'. by subst.
Qed.

Lemma bound_run_ids bound f c schedule ns out :
  bound f = Some c →
  Forall (λ s, s.1 = f) schedule →
  logIds (foldl (run_step bound this) (ns, out) schedule).2
  = logIds out ++ global_ids (field (deref ns c) "logId") (snd <$> schedule).
Proof.
  intros Hb Hall. revert ns out.
  induction Hall as [|[g op] schedule Hg Hall IH]; intros ns out.
  { simpl. by rewrite app_nil_r. }
  simpl in Hg. subst g. cbn [foldl].
  rewrite run_step_bound with (c := c) by done.
  rewrite fmap_cons. cbn [snd].
  destruct op as [v|v|level message opts]; cbn [bound_step global_ids].
  - rewrite IH, deref_update_eq. unfold field at 1.
    by rewrite lookup_insert_eq.
  - rewrite IH, deref_update_eq. unfold field at 1.
    by rewrite lookup_insert_ne.
  - destruct (facade_logId_field level (enter (Some c) ns) message opts)
      as (r & -> & Hr).
    rewrite IH, logIds_app, <- app_assoc. unfold logIds at 2. simpl.
    rewrite Hr, getLogId_enter. done.
Qed.

(** X14: inside the middleware every flow has a variable of its own.
    When each flow of a schedule is bound to a context no other flow is
    bound to, the records of a flow show the [logId] that flow itself
    set most recently, or the one its context held at the start,
    whatever the other flows set in between. *)
Theorem bound_flows_own_variable bound f c schedule ns :
  bound f = Some c →
  Forall (λ s, s.1 ≠ f → ∃ cg, bound s.1 = Some cg ∧ cg ≠ c) schedule →
  shown_logId f (run bound this schedule ns).2
  = global_ids (field (deref ns c) "logId") (snd <$> own f schedule).
Proof.
  intros Hb Hall. unfold shown_logId.
  rewrite (bound_flows_do_not_interfere bound this f c) by done.
  assert (Hown : Forall (λ s, s.1 = f) (own f schedule)).
  { unfold own. apply Forall_forall. intros s Hs.
    by apply list_elem_of_filter in Hs as [? _]. }
  unfold run.
  exact (bound_run_ids bound f c (own f schedule) ns [] Hb Hown).
Qed.

End more_flows.

Lemma tests_ticks_carry_their_uuid_witness :
  logIds (run unbound ready_logger
            ((pair 0 <$> tests_log (VStr "7f0c")) ++ (pair 1 <$> tests_log (VStr "91ab")))
            ns_initial).2
  = [Some (VStr "7f0c"); Some (VStr "7f0c"); Some (VStr "7f0c");
     Some (VStr "91ab"); Some (VStr "91ab"); Some (VStr "91ab")].
Proof.
  apply (tests_ticks_carry_their_uuid ready_logger eq_refl
           (VStr "7f0c") (VStr "91ab") ns_initial); reflexivity.
Defined.

Lemma unbound_flows_share_one_variable_witness :
  logIds (run unbound ready_logger racing_schedule ns_initial).2
  = global_ids (getLogId ns_initial) (snd <$> racing_schedule).
Proof.
  apply (unbound_flows_share_one_variable ready_logger eq_refl).
Defined.

Lemma bound_flows_own_variable_witness :
  shown_logId 0 (run each_its_own ready_logger racing_schedule ns_initial).2
  = global_ids (field (deref ns_initial 0) "logId") (snd <$> own 0 racing_schedule).
Proof.
  apply (bound_flows_own_variable ready_logger eq_refl each_its_own 0 0
           racing_schedule ns_initial); [reflexivity|].
  apply Forall_forall. intros [g op] _ Hne. simpl in *.
  exists g. split; [reflexivity | exact Hne].
Defined.

(** * More on process names and records *)

Section more_records.

Variable toUpperCase : string → string.

Implicit Types (this : Logger) (ns : Namespace) (level : Level).
Implicit Types (message opts : value) (methodName : string).

Lemma truthy_decorated (a b c : string) :
  truthy (VStr (a +:+ String (Ascii.ascii_of_nat 93) b +:+ c)) = true
  ∧ truthy (VStr (a +:+ String (Ascii.ascii_of_nat 41) b +:+ c)) = true.
Proof. split; by destruct a. Qed.

Lemma V1_setMethodProcess_captured methodName this :
  truthy (classProcessName this) = true →
  V1.setMethodProcess toUpperCase methodName this
  = {| logger := logger this;
       processName :=
         VStr (to_string (classProcessName this) +:+ "] [methods:"
                 +:+ capitalize toUpperCase methodName);
       classProcessName := classProcessName this |}.
Proof. intros H. unfold V1.setMethodProcess. by rewrite H. Qed.

Lemma V1_setMethodProcess_first methodName this :
  truthy (classProcessName this) = false →
  V1.setMethodProcess toUpperCase methodName this
  = {| logger := logger this;
       processName :=
         VStr (to_string (processName this) +:+ "] [methods:"
                 +:+ capitalize toUpperCase methodName);
       classProcessName := processName this |}.
Proof. intros H. unfold V1.setMethodProcess. by rewrite H. Qed.

Lemma V3_setMethodProcess_captured methodName this :
  truthy (classProcessName this) = true →
  V3.setMethodProcess toUpperCase methodName this
  = {| logger := logger this;
       processName :=
         VStr (to_string (classProcessName this) +:+ ") (methods:"
                 +:+ capitalize toUpperCase methodName);
       classProcessName := classProcessName this |}.
Proof. intros H. unfold V3.setMethodProcess. by rewrite H. Qed.

Lemma V3_setMethodProcess_first methodName this :
  truthy (classProcessName this) = false →
  V3.setMethodProcess toUpperCase methodName this
  = {| logger := logger this;
       processName :=
         VStr (to_string (processName this) +:+ ") (methods:"
                 +:+ capitalize toUpperCase methodName);
       classProcessName := processName this |}.
Proof. intros H. unfold V3.setMethodProcess. by rewrite H. Qed.

Lemma V1_setMethodProcess_fold methodNames this :
  truthy (classProcessName this) = true →
  let final := foldl (λ lg m, V1.setMethodProcess toUpperCase m lg) this methodNames in
  classProcessName final = classProcessName this
  ∧ logger final = logger this
  ∧ processName final
    = match last methodNames with
      | Some m => VStr (to_string (classProcessName this) +:+ "] [methods:"
                          +:+ capitalize toUpperCase m)
      | None => processName this
      end.
Proof.
  intros Hc. simpl.
  induction methodNames as [|m ms IH] using rev_ind; [done|].
  rewrite foldl_app, last_snoc. cbn [foldl].
  destruct IH as (IHc & IHl & _).
  rewrite V1_setMethodProcess_captured by (by rewrite IHc).
  simpl. by rewrite IHc, IHl.
Qed.

(** X15: method qualifiers replace one another.  Once a truthy process
    name is set and no class name has been captured yet, any number of
    [setMethodProcess] calls leaves the process name made of that first
    name and of the last method alone, and the class name is the first
    name; the backend logger is untouched.  (Version 1; versions 2 and 3
    differ in the separator only.) *)
Theorem method_qualifiers_do_not_nest first methodNames this :
  truthy (processName this) = true →
  truthy (classProcessName this) = false →
  let final :=
    foldl (λ lg m, V1.setMethodProcess toUpperCase m lg) this
      (first :: methodNames) in
  classProcessName final = processName this
  ∧ logger final = logger this
  ∧ processName final
    = VStr (to_string (processName this) +:+ "] [methods:"
              +:+ capitalize toUpperCase (default first (last methodNames))).
Proof.
  intros Hp Hc. cbn [foldl]. rewrite V1_setMethodProcess_first by done.
  match goal with
  | |- context [foldl ?f ?lg methodNames] =>
      destruct (V1_setMethodProcess_fold methodNames lg) as (H1 & H2 & H3);
      [exact Hp|]
  end.
  simpl in *. rewrite H1, H2, H3. by destruct (last methodNames).
Qed.

(** X16: a class name once captured is never refreshed.  After a first
    [setMethodProcess], a process name set later with [setProcess] or
    [setFilename] is discarded by the next [setMethodProcess], which
    builds the name from the captured class name. *)
Theorem captured_class_name_is_stale basename filename name methodName this :
  truthy (classProcessName this) = true →
  V1.setMethodProcess toUpperCase methodName (setProcess name this)
  = V1.setMethodProcess toUpperCase methodName this
  ∧ V1.setMethodProcess toUpperCase methodName (setFilename basename filename this)
    = V1.setMethodProcess toUpperCase methodName this
  ∧ V3.setMethodProcess toUpperCase methodName (setProcess name this)
    = V3.setMethodProcess toUpperCase methodName this
  ∧ V3.setMethodProcess toUpperCase methodName (setFilename basename filename this)
    = V3.setMethodProcess toUpperCase methodName this.
Proof.
  intros Hc.
  by rewrite !V1_setMethodProcess_captured, !V3_setMethodProcess_captured.
Qed.

(** X17: with no process name set, the qualifiers pile up and the
    usage error disappears.  The first [setMethodProcess] builds the name
    from the text of the missing value and captures nothing, so the
    second one captures the name the first one built and appends to it;
    and from the first call on the name is truthy, so version 1 logs the
    ordinary record, its message opening with that name, instead of the
    fallback. *)
Theorem qualifiers_nest_without_process_name first second this ns level message
    opts :
  truthy (processName this) = false →
  truthy (classProcessName this) = false →
  processName
    (V1.setMethodProcess toUpperCase second
       (V1.setMethodProcess toUpperCase first this))
  = VStr ((to_string (processName this) +:+ "] [methods:"
             +:+ capitalize toUpperCase first)
            +:+ "] [methods:" +:+ capitalize toUpperCase second)
  ∧ ∃ r meta,
      V1.facade level (V1.setMethodProcess toUpperCase first this) ns message opts
        = inr r
      ∧ em_meta r = Some meta
      ∧ em_message r
        = VStr ("[" +:+ (to_string (processName this) +:+ "] [methods:"
                           +:+ capitalize toUpperCase first)
                  +:+ "]: " +:+ to_string message).
Proof.
  intros Hp Hc. rewrite (V1_setMethodProcess_first first) by done. split.
  - rewrite V1_setMethodProcess_first by done. done.
  - rewrite V1_facade_doLog.
    match goal with
    | |- context [V1.doLog ?lg ns level message ?o] =>
        destruct (V1_doLog_ready lg ns level message o) as (meta & -> & _)
    end.
    { simpl. apply truthy_decorated. }
    by eexists _, _.
Qed.

(** X18: the qualified name in the message.  With the process name
    [name] set and then qualified by a method, version 1 opens the
    message with balanced brackets, [[name] [methods:Method]: ]; version
    3 qualifies with round brackets but still wraps in square ones, so
    its message opens with [[name) (methods:Method]: ]. *)
Theorem qualified_prefix (name : string) methodName this ns level message opts :
  truthy (classProcessName this) = false →
  (∃ r, V1.facade level
          (V1.setMethodProcess toUpperCase methodName (setProcess (VStr name) this))
          ns message opts = inr r
        ∧ em_message r
          = VStr ("[" +:+ (name +:+ "] [methods:" +:+ capitalize toUpperCase methodName)
                    +:+ "]: " +:+ to_string message))
  ∧ (∃ r, V3.facade level
            (V3.setMethodProcess toUpperCase methodName (setProcess (VStr name) this))
            ns message opts = inr r
          ∧ em_message r
            = VStr ("[" +:+ (name +:+ ") (methods:"
                               +:+ capitalize toUpperCase methodName)
                      +:+ "]: " +:+ to_string message)).
Proof.
  intros Hc. split.
  - rewrite V1_setMethodProcess_first by done. rewrite V1_facade_doLog.
    match goal with
    | |- context [V1.doLog ?lg ns level message ?o] =>
        destruct (V1_doLog_ready lg ns level message o) as (meta & -> & _)
    end.
    { simpl. apply truthy_decorated. }
    eexists. split; [reflexivity|]. done.
  - rewrite V3_setMethodProcess_first by done. rewrite V3_facade_doLog.
    match goal with
    | |- context [V3.doLog ?lg ns level message ?o] =>
        destruct (V3_doLog_ready lg ns level message o) as (meta & -> & _)
    end.
    { simpl. apply truthy_decorated. }
    eexists. split; [reflexivity|]. done.
Qed.

Lemma V1_doLog_level_kept this ns level message opts r :
  V1.doLog this ns level message opts = inr r →
  em_level r = level ∧ em_logger r = logger this.
Proof.
  destruct (truthy (processName this)) eqn:Hp.
  - destruct (V1_doLog_ready this ns level message opts Hp) as (meta & -> & _).
    by intros [= <-].
  - rewrite V1_doLog_fallback by done. by intros [= <-].
Qed.

Lemma V3_doLog_level_kept this ns level message opts r :
  V3.doLog this ns level message opts = inr r →
  em_level r = level ∧ em_logger r = logger this.
Proof.
  destruct (truthy (processName this)) eqn:Hp.
  - destruct (V3_doLog_ready this ns level message opts Hp) as (meta & -> & _).
    by intros [= <-].
  - rewrite V3_doLog_fallback by done. by intros [= <-].
Qed.

(** X19: the eleven level methods are four.  In each version the
    single-letter and the alias forms return what the canonical method of
    their severity returns, and whatever path [doLog] takes the record is
    handed to the logger's own backend at the severity of the method
    called. *)
Theorem aliases_are_canonical this ns message opts :
  (V1.i this ns message opts = V1.facade LInfo this ns message opts
   ∧ V1.l this ns message opts = V1.facade LInfo this ns message opts
   ∧ V1.log this ns message opts = V1.facade LInfo this ns message opts
   ∧ V1.e this ns message opts = V1.facade LError this ns message opts
   ∧ V1.w this ns message opts = V1.facade LWarn this ns message opts
   ∧ V1.warning this ns message opts = V1.facade LWarn this ns message opts
   ∧ V1.d this ns message opts = V1.facade LDebug this ns message opts)
  ∧ (V2.i this ns message opts = V2.facade LInfo this ns message opts
     ∧ V2.l this ns message opts = V2.facade LInfo this ns message opts
     ∧ V2.log this ns message opts = V2.facade LInfo this ns message opts
     ∧ V2.e this ns message opts = V2.facade LError this ns message opts
     ∧ V2.w this ns message opts = V2.facade LWarn this ns message opts
     ∧ V2.warning this ns message opts = V2.facade LWarn this ns message opts
     ∧ V2.d this ns message opts = V2.facade LDebug this ns message opts)
  ∧ (V3.i this ns message opts = V3.facade LInfo this ns message opts
     ∧ V3.l this ns message opts = V3.facade LInfo this ns message opts
     ∧ V3.log this ns message opts = V3.facade LInfo this ns message opts
     ∧ V3.e this ns message opts = V3.facade LError this ns message opts
     ∧ V3.w this ns message opts = V3.facade LWarn this ns message opts
     ∧ V3.warning this ns message opts = V3.facade LWarn this ns message opts
     ∧ V3.d this ns message opts = V3.facade LDebug this ns message opts)
  ∧ ∀ level,
      (∃ r, V1.facade level this ns message opts = inr r
            ∧ em_level r = level ∧ em_logger r = logger this)
      ∧ (∃ r, V2.facade level this ns message opts = inr r
              ∧ em_level r = level ∧ em_logger r = logger this)
      ∧ (∃ r, V3.facade level this ns message opts = inr r
              ∧ em_level r = level ∧ em_logger r = logger this).
Proof.
  split; [|split; [|split]].
  - unfold V1.facade, V1.info, V1.l, V1.log, V1.error, V1.warn, V1.warning,
      V1.debug, V1.i, V1.e, V1.w, V1.d.
    by rewrite !default_opts_idemp.
  - done.
  - done.
  - intros level. repeat split.
    + rewrite V1_facade_doLog.
      destruct (V1.doLog this ns level message (default_opts opts)) as [err|r] eqn:H.
      * unfold V1.doLog, try_catch in H.
        by destruct (truthy (processName this)).
      * exists r. split; [done|]. by apply V1_doLog_level_kept in H.
    + rewrite V2_facade_doLog.
      destruct (V2_doLog_record this ns level message opts) as (meta & -> & _).
      by eexists.
    + rewrite V3_facade_doLog.
      destruct (V3.doLog this ns level message opts) as [err|r] eqn:H.
      * unfold V3.doLog, try_catch in H.
        by destruct (truthy (processName this)).
      * exists r. split; [done|]. by apply V3_doLog_level_kept in H.
Qed.

(** X20: the fields of a record of version 1.  With a process name
    set the call carries [metadata] and [processName] always, [logId]
    exactly when the flow's is truthy, [userId] exactly when the flow's is
    truthy, and no other field; without a process name it carries none. *)
Theorem V1_record_fields this ns level message opts :
  ∃ r, V1.facade level this ns message opts = inr r
       ∧ ∀ k, is_Some (em_field r k)
              ↔ truthy (processName this) = true
                ∧ (k = "metadata" ∨ k = "processName"
                   ∨ (k = "logId" ∧ truthy (getLogId ns) = true)
                   ∨ (k = "userId" ∧ truthy (getUserId ns) = true)).
Proof.
  rewrite V1_facade_doLog.
  destruct (truthy (processName this)) eqn:Hp.
  - destruct (V1_doLog_ready this ns level message (default_opts opts) Hp)
      as (meta & -> & Hmeta & Hlog & Huser & Hproc & Hother).
    eexists. split; [reflexivity|]. intros k. unfold em_field. simpl.
    destruct (decide (k = "metadata")) as [->|H1].
    { rewrite Hmeta. split; [intros _; split; [done|by left] | by eauto]. }
    destruct (decide (k = "processName")) as [->|H2].
    { rewrite Hproc. split; [intros _; split; [done|right; by left] | by eauto]. }
    destruct (decide (k = "logId")) as [->|H3].
    { rewrite Hlog. destruct (truthy (getLogId ns)).
      - split; [intros _; split; [done|right; right; by left] | by eauto].
      - split; [by intros [? ?]|].
        intros [_ [?|[?|[[_ ?]|[? _]]]]]; done. }
    destruct (decide (k = "userId")) as [->|H4].
    { rewrite Huser. destruct (truthy (getUserId ns)).
      - split; [intros _; split; [done|right; right; by right] | by eauto].
      - split; [by intros [? ?]|].
        intros [_ [?|[?|[[? _]|[_ ?]]]]]; done. }
    rewrite Hother by done. split; [by intros [? ?]|].
    intros [_ [?|[?|[[? _]|[? _]]]]]; done.
  - rewrite V1_doLog_fallback by done.
    eexists. split; [reflexivity|]. intros k. unfold em_field. simpl.
    split; [by intros [? ?]|]. by intros [? _].
Qed.

(** X21: versions 2 and 3 pass the extra through and write the ids
    over it.  A truthy [logId] of the flow replaces a [logId] and a
    [trace_id] the extra brings, a truthy [userId] replaces the extra's,
    and every other key of the extra reaches the record unchanged (in
    version 3 all but [processName], once a process name is set). *)
Theorem extra_passes_through this ns level message opts :
  (∃ r, V2.facade level this ns message opts = inr r
        ∧ (truthy (getLogId ns) = true →
           em_field r "logId" = Some (getLogId ns)
           ∧ em_field r "trace_id" = Some (getLogId ns))
        ∧ (truthy (getUserId ns) = true → em_field r "userId" = Some (getUserId ns))
        ∧ ∀ k, k ≠ "logId" → k ≠ "trace_id" → k ≠ "userId" →
               em_field r k = own_props opts !! k)
  ∧ (truthy (processName this) = true →
     ∃ r, V3.facade level this ns message opts = inr r
          ∧ (truthy (getLogId ns) = true →
             em_field r "logId" = Some (getLogId ns)
             ∧ em_field r "trace_id" = Some (getLogId ns))
          ∧ (truthy (getUserId ns) = true →
             em_field r "userId" = Some (getUserId ns))
          ∧ em_field r "processName" = Some (processName this)
          ∧ ∀ k, k ≠ "logId" → k ≠ "trace_id" → k ≠ "userId" →
                 k ≠ "processName" → em_field r k = own_props opts !! k).
Proof.
  split.
  - rewrite V2_facade_doLog.
    destruct (V2_doLog_record this ns level message opts)
      as (meta & -> & Hlog & Htrace & Huser & Hother).
    eexists. split; [reflexivity|]. unfold em_field. simpl.
    split; [|split; [|exact Hother]].
    + intros H. by rewrite H in Hlog, Htrace.
    + intros H. by rewrite H in Huser.
  - intros Hp. rewrite V3_facade_doLog.
    destruct (V3_doLog_ready this ns level message opts Hp)
      as (meta & -> & Hlog & Htrace & Huser & Hproc & Hother).
    eexists. split; [reflexivity|]. unfold em_field. simpl.
    split; [|split; [|split; [exact Hproc | exact Hother]]].
    + intros H. by rewrite H in Hlog, Htrace.
    + intros H. by rewrite H in Huser.
Qed.

(** X22: an error handed over as the message, as [catchError] of
    [src/tests/index.js] does with [logger.error(error)].  Version 1
    turns it into text, its name and its message, behind the process
    name; the extra defaults to the empty object, so the metadata of the
    record is empty and the stack of the error is in neither. *)
Theorem error_as_message_loses_stack this ns id (name msg stack : string)
    (cause : option value) :
  truthy (processName this) = true →
  name ≠ "" →
  msg ≠ "" →
  ∃ r, V1.error this ns (VError id name msg stack cause) VUndefined = inr r
       ∧ em_level r = LError
       ∧ em_message r
         = VStr ("[" +:+ to_string (processName this) +:+ "]: "
                   +:+ (name +:+ ": " +:+ msg))
       ∧ em_field r "metadata" = Some (VObj ∅).
Proof.
  intros Hp Hn Hm.
  change (V1.error this ns (VError id name msg stack cause) VUndefined)
    with (V1.facade LError this ns (VError id name msg stack cause) VUndefined).
  rewrite V1_facade_doLog.
  destruct (V1_doLog_ready this ns LError (VError id name msg stack cause)
              (default_opts VUndefined) Hp) as (meta & -> & Hmeta & _).
  eexists. split; [reflexivity|]. split; [done|]. split.
  - simpl. apply String.eqb_neq in Hn, Hm. by rewrite Hn, Hm.
  - unfold em_field. simpl. rewrite Hmeta. unfold V1.parseMetadata. simpl.
    by destruct (is_str _ _).
Qed.

End more_records.

Lemma method_qualifiers_do_not_nest_witness :
  processName
    (foldl (λ lg m, V1.setMethodProcess upper_ascii m lg)
       (setProcess (VStr "billing.js") prod_logger) ["create"; "update"])
  = VStr "billing.js] [methods:Update".
Proof.
  destruct (method_qualifiers_do_not_nest upper_ascii "create" ["update"]
              (setProcess (VStr "billing.js") prod_logger) eq_refl eq_refl)
    as (_ & _ & H).
  exact H.
Defined.

Lemma captured_class_name_is_stale_witness :
  processName
    (V1.setMethodProcess upper_ascii "update"
       (setFilename (last_segment "") "/srv/app/orders.js"
          (V1.setMethodProcess upper_ascii "create"
             (setProcess (VStr "billing.js") prod_logger))))
  = VStr "billing.js] [methods:Update".
Proof.
  destruct (captured_class_name_is_stale upper_ascii (last_segment "")
              "/srv/app/orders.js" VNull "update"
              (V1.setMethodProcess upper_ascii "create"
                 (setProcess (VStr "billing.js") prod_logger)) eq_refl)
    as (_ & H & _).
  rewrite H. reflexivity.
Defined.

Lemma qualifiers_nest_without_process_name_witness :
  processName
    (V1.setMethodProcess upper_ascii "update"
       (V1.setMethodProcess upper_ascii "create" prod_logger))
  = VStr "undefined] [methods:Create] [methods:Update".
Proof.
  destruct (qualifiers_nest_without_process_name upper_ascii "create" "update"
              prod_logger ns_initial LInfo (VStr "hello") VUndefined
              eq_refl eq_refl) as [H _].
  exact H.
Defined.

Lemma qualified_prefix_witness :
  (∃ r, V1.facade LInfo
          (V1.setMethodProcess upper_ascii "create"
             (setProcess (VStr "billing.js") prod_logger))
          ns_initial (VStr "hello") VUndefined = inr r
        ∧ em_message r = VStr "[billing.js] [methods:Create]: hello")
  ∧ (∃ r, V3.facade LInfo
            (V3.setMethodProcess upper_ascii "create"
               (setProcess (VStr "billing.js") prod_logger))
            ns_initial (VStr "hello") VUndefined = inr r
          ∧ em_message r = VStr "[billing.js) (methods:Create]: hello").
Proof.
  exact (qualified_prefix upper_ascii "billing.js" "create" prod_logger ns_initial
           LInfo (VStr "hello") VUndefined eq_refl).
Defined.

Lemma extra_passes_through_witness :
  ∃ r, V3.facade LInfo ready_logger request_ns (VStr "hello")
         (VObj (<["logId" := VStr "mine"]> {[ "order" := VNum 7 ]})) = inr r
       ∧ em_field r "logId" = Some (VStr "req-1")
       ∧ em_field r "trace_id" = Some (VStr "req-1")
       ∧ em_field r "order" = Some (VNum 7).
Proof.
  destruct (extra_passes_through ready_logger request_ns LInfo (VStr "hello")
              (VObj (<["logId" := VStr "mine"]> {[ "order" := VNum 7 ]})))
    as [_ H3].
  destruct (H3 eq_refl) as (r & Hr & Hl & _ & _ & Hother).
  exists r. split; [exact Hr|].
  destruct (Hl eq_refl) as [H1 H2]. split; [exact H1|]. split; [exact H2|].
  rewrite Hother by discriminate. reflexivity.
Defined.

Lemma error_as_message_loses_stack_witness :
  ∃ r, V1.error ready_logger ns_initial
         (VError 1 "Error" "Size too big" "Error: Size too big at catchError" None)
         VUndefined = inr r
       ∧ em_level r = LError
       ∧ em_message r = VStr "[index.js]: Error: Size too big"
       ∧ em_field r "metadata" = Some (VObj ∅).
Proof.
  apply (error_as_message_loses_stack ready_logger ns_initial 1 "Error"
           "Size too big" "Error: Size too big at catchError" None);
    [reflexivity | discriminate | discriminate].
Defined.
